(** * expotools [workflow-dispatch]: a model of
      tools/expotools/src/commands/WorkflowDispatch.ts

    The command is a short pipeline of effects: read the environment, one
    GET to list the workflows, file-existence checks, possibly a prompt,
    possibly a query to git, one POST, then logging and the exit code.  The
    model keeps every function of the file under its own name, as a
    computation in a small monad that reads the outside world, may throw or
    exit, and records each effect it performs in a trace. *)

From Stdlib Require Import List String Ascii ZArith Bool Lia.
From Stdlib Require Import Sorted Permutation DecimalString.
Import ListNotations.

Open Scope string_scope.
Open Scope Z_scope.

(** ** JavaScript values used by the command *)

(** [!s] is true of an empty string only. *)
Definition truthy (s : string) : bool :=
  match s with
  | EmptyString => false
  | String _ _ => true
  end.

(** A value of type [string | undefined]: an optional argument, an optional
    flag, a variable of [process.env]. *)
Definition truthy_opt (o : option string) : bool :=
  match o with
  | Some s => truthy s
  | None => false
  end.

(** The string behind a [string | undefined] known to be truthy. *)
Definition the_string (o : option string) : string :=
  match o with
  | Some s => s
  | None => EmptyString
  end.

(** A value of type [number | null]; identifiers are integers. *)
Definition truthy_id (o : option Z) : bool :=
  match o with
  | Some z => negb (z =? 0)
  | None => false
  end.

(** [n === o] for a number [n] and a [number | null]. *)
Definition strict_eq_id (n : Z) (o : option Z) : bool :=
  match o with
  | Some z => n =? z
  | None => false
  end.

Definition string_of_Z (z : Z) : string :=
  NilZero.string_of_int (Z.to_int z).

(** [`${o}`] for a [number | null]. *)
Definition template_id (o : option Z) : string :=
  match o with
  | Some z => string_of_Z z
  | None => "null"
  end.

(** [`${o}`] for a [string | undefined]. *)
Definition template_string (o : option string) : string :=
  match o with
  | Some s => s
  | None => "undefined"
  end.

(** ** Data *)

(** An element of [response.data.workflows].  The type [Workflow] of the
    file names [id], [name] and [path]; the objects of the response carry
    [state] as well, which [getWorkflowsAsync] reads. *)
Record Workflow := {
  id : Z;
  name : string;
  path : string;
  state : string
}.

Record CommandOptions := {
  ref : option string
}.

(** A call of [request(route, parameters)]. *)
Record Request := {
  route : string;
  headers : list (string * string);
  param_owner : string;
  param_repo : string;
  param_workflow_id : option Z;
  param_ref : option string
}.

Record Response := {
  status : Z;
  workflows : list Workflow
}.

(** One entry of [choices] and the question given to [inquirer.prompt]. *)
Record Choice := {
  choice_name : string;
  value : Z
}.

Record Question := {
  question_type : string;
  question_name : string;
  message : string;
  choices : list Choice;
  pageSize : nat
}.

(** How an awaited promise of the outside world settles. *)
Inductive Reply (A : Type) : Type :=
| Resolved (a : A)
| Rejected (reason : string).
Arguments Resolved {A} a.
Arguments Rejected {A} reason.

(** ** The outside world *)

(** Functions of the JavaScript and Node libraries that the file calls and
    constants it imports.  They are pure, and nothing is assumed of them
    here. *)
Record Runtime := {
  toLowerCase : string -> string;
  localeCompare : string -> string -> Z;
  path_join : string -> string -> string;
  EXPO_DIR : string;
  JSON_stringify : Response -> string
}.

(** What one invocation finds around it: the environment, the remote API
    behind [request], the file system, the user at the prompt (the index of
    the choice picked, or no answer), and git. *)
Record World := {
  env_GITHUB_TOKEN : option string;
  env_CI : option string;
  remote : Request -> Reply Response;
  pathExists : string -> bool;
  prompt_choice : option nat;
  current_branch : Reply string
}.

(** ** Effects *)

Inductive event : Type :=
| EvRequest (r : Request)
| EvPathExists (p : string)
| EvPrompt (q : Question)
| EvGitCurrentBranch
| EvLogError (msg payload : string)
| EvLogSuccess (msg : string).

(** [Error]: thrown by a [throw new Error(...)] of the file.
    [Rejection]: an awaited call of the outside world rejected. *)
Inductive exn : Type :=
| Error (msg : string)
| Rejection (reason : string).

Inductive result (A : Type) : Type :=
| Ok (a : A)
| Throw (e : exn)
| Exit (code : Z).
Arguments Ok {A} a.
Arguments Throw {A} e.
Arguments Exit {A} code.

Definition M (A : Type) : Type := World -> result A * list event.

Definition ret {A} (a : A) : M A := fun _ => (Ok a, []).

Definition bind {A B} (m : M A) (f : A -> M B) : M B := fun w =>
  match m w with
  | (Ok a, t) => let (r, t') := f a w in (r, (t ++ t')%list)
  | (Throw e, t) => (Throw e, t)
  | (Exit c, t) => (Exit c, t)
  end.

Notation "x <- m ;; k" := (bind m (fun x => k))
  (at level 61, m at next level, right associativity).
Notation "m ;; k" := (bind m (fun _ => k))
  (at level 61, right associativity).

Definition throw {A} (e : exn) : M A := fun _ => (Throw e, []).
Definition process_exit {A} (code : Z) : M A := fun _ => (Exit code, []).
Definition emit (e : event) : M unit := fun _ => (Ok tt, [e]).
Definition ask : M World := fun w => (Ok w, []).

Definition await {A} (r : Reply A) : M A :=
  match r with
  | Resolved a => ret a
  | Rejected reason => throw (Rejection reason)
  end.

(** *** Calls into the outside world *)

Definition request (r : Request) : M Response :=
  w <- ask ;;
  emit (EvRequest r) ;;
  await (remote w r).

Definition fs_pathExists (p : string) : M bool :=
  w <- ask ;;
  emit (EvPathExists p) ;;
  ret (pathExists w p).

(** A prompt of type [list] resolves to the [value] of the choice picked. *)
Definition inquirer_prompt (q : Question) : M Z :=
  w <- ask ;;
  emit (EvPrompt q) ;;
  match prompt_choice w with
  | Some i =>
      match nth_error (choices q) i with
      | Some c => ret (value c)
      | None => throw (Rejection "prompt")
      end
  | None => throw (Rejection "prompt")
  end.

Definition Git_getCurrentBranchNameAsync : M string :=
  w <- ask ;;
  emit EvGitCurrentBranch ;;
  await (current_branch w).

Definition logger_error (msg payload : string) : M unit :=
  emit (EvLogError msg payload).

Definition logger_success (msg : string) : M unit :=
  emit (EvLogSuccess msg).

(** [Promise.all].  The promises are run here in the order of the list;
    the order in which they touch the outside world is a choice of this
    model, on which no property below relies: the checks of listing are
    described as a set. *)
Fixpoint Promise_all {A} (ps : list (M A)) : M (list A) :=
  match ps with
  | [] => ret []
  | p :: rest =>
      a <- p ;;
      others <- Promise_all rest ;;
      ret (a :: others)
  end.

(** [arr.filter((item, index) => results[index])]. *)
Fixpoint select {A} (arr : list A) (results : list bool) : list A :=
  match arr, results with
  | x :: arr', keep :: results' =>
      if keep then x :: select arr' results' else select arr' results'
  | _, _ => []
  end.

(** Modelled from the spec: [filterAsync] of [../Utils], which is not among
    the sources.  The check runs for all candidates, all checks complete
    before filtering proceeds, and the candidates whose check holds are
    kept. *)
Definition filterAsync {A} (arr : list A) (predicate : A -> M bool) : M (list A) :=
  results <- Promise_all (map predicate arr) ;;
  ret (select arr results).

(** [Array.prototype.sort(comparefn)], which ECMAScript specifies as a
    stable sort: [comparefn a b <= 0] leaves [a] before [b].  Insertion from
    the right computes it; [sort_is_the_stable_sort] below shows that the
    result is that of any stable sort. *)
Fixpoint insert {A} (comparefn : A -> A -> Z) (x : A) (l : list A) : list A :=
  match l with
  | [] => [x]
  | y :: l' =>
      if comparefn x y <=? 0 then x :: y :: l' else y :: insert comparefn x l'
  end.

Definition sort {A} (comparefn : A -> A -> Z) (l : list A) : list A :=
  fold_right (insert comparefn) [] l.

(** ** The command *)

(** The two emoji that open the log messages, as their UTF-8 bytes. *)
Definition byte (n : nat) : string := String (ascii_of_nat n) EmptyString.
Definition emoji_collision : string := byte 240 ++ byte 159 ++ byte 146 ++ byte 165.
Definition emoji_party : string := byte 240 ++ byte 159 ++ byte 142 ++ byte 137.

Definition dispatch_route : string :=
  "POST /repos/:owner/:repo/actions/workflows/:workflow_id/dispatches".

Definition listing_request : Request :=
  {| route := "GET /repos/:owner/:repo/actions/workflows";
     headers := [];
     param_owner := "expo";
     param_repo := "expo";
     param_workflow_id := None;
     param_ref := None |}.

Definition dispatch_request (token : option string) (workflowId : Z) (r : string)
  : Request :=
  {| route := dispatch_route;
     headers := [("authorization", "token " ++ template_string token)];
     param_owner := "expo";
     param_repo := "expo";
     param_workflow_id := Some workflowId;
     param_ref := Some r |}.

Definition token_missing : exn :=
  Error "Environment variable `GITHUB_TOKEN` must be set.".

Definition name_missing_on_ci : exn :=
  Error "Command requires `workflowName` argument when run on the CI.".

Definition workflow_not_found (workflowId : option Z) : exn :=
  Error ("Unable to find workflow with ID `" ++ template_id workflowId ++ "`.").

Section Command.

Variable rt : Runtime.

(** The predicate given to [filterAsync]: [&&] stops at the first falsy
    operand, so the file system is asked only about a candidate that passed
    the three tests before it. *)
Definition eligibleAsync (workflow : Workflow) : M bool :=
  if truthy (name workflow) && truthy (path workflow)
     && (state workflow =? "active")%string
  then fs_pathExists (path_join rt (EXPO_DIR rt) (path workflow))
  else ret false.

Definition by_name (a b : Workflow) : Z :=
  localeCompare rt (name a) (name b).

Definition getWorkflowsAsync : M (list Workflow) :=
  response <- request listing_request ;;
  workflows <- filterAsync (workflows response) eligibleAsync ;;
  ret (sort by_name workflows).

(** The question that [promptWorkflowIdAsync] asks. *)
Definition workflow_question (workflows : list Workflow) : Question :=
  {| question_type := "list";
     question_name := "workflowId";
     message := "Which workflow do you want to dispatch?";
     choices := map (fun workflow =>
                       {| choice_name := name workflow; value := id workflow |})
                    workflows;
     pageSize := List.length workflows |}.

Definition promptWorkflowIdAsync (workflows : list Workflow) : M Z :=
  inquirer_prompt (workflow_question workflows).

(** The callback of [workflows.find]. *)
Definition matches (slug : string) (workflow : Workflow) : bool :=
  (toLowerCase rt (name workflow) =? slug)%string
  || (toLowerCase rt (path workflow) =? ".github/workflows/" ++ slug ++ ".yml")%string.

Definition findWorkflowIdAsync (workflows : list Workflow)
    (workflowName : option string) : M (option Z) :=
  if negb (truthy_opt workflowName) then
    w <- ask ;;
    if truthy_opt (env_CI w) then throw name_missing_on_ci
    else
      workflowId <- promptWorkflowIdAsync workflows ;;
      ret (Some workflowId)
  else
    let slug := toLowerCase rt (the_string workflowName) in
    let workflow := find (matches slug) workflows in
    ret (option_map id workflow).

Definition dispatchWorkflowAsync (workflowId : Z) (r : string) : M unit :=
  w <- ask ;;
  response <- request (dispatch_request (env_GITHUB_TOKEN w) workflowId r) ;;
  (if negb (status response =? 204) then
     logger_error (emoji_collision ++ " Dispatching workflow failed with response")
                  (JSON_stringify rt response) ;;
     process_exit 1
   else ret tt) ;;
  logger_success (emoji_party ++ " Successfully dispatched workflow event ").

(** [options.ref || (await Git.getCurrentBranchNameAsync())]. *)
Definition reference (options : CommandOptions) : M string :=
  if truthy_opt (ref options) then ret (the_string (ref options))
  else Git_getCurrentBranchNameAsync.

Definition main (workflowName : option string) (options : CommandOptions) : M unit :=
  w <- ask ;;
  if negb (truthy_opt (env_GITHUB_TOKEN w)) then throw token_missing
  else
    workflows <- getWorkflowsAsync ;;
    workflowId <- findWorkflowIdAsync workflows workflowName ;;
    r <- reference options ;;
    if negb (truthy_id workflowId)
       || negb (existsb (fun workflow => strict_eq_id (id workflow) workflowId)
                        workflows)
    then throw (workflow_not_found workflowId)
    else
      (* past the test above, [workflowId] is a number *)
      match workflowId with
      | Some n => dispatchWorkflowAsync n r
      | None => throw (workflow_not_found workflowId)
      end.

End Command.

(** ** Observing a run *)

Definition outcome {A} (m : M A) (w : World) : result A := fst (m w).
Definition trace {A} (m : M A) (w : World) : list event := snd (m w).

Definition requests (t : list event) : list Request :=
  flat_map (fun e => match e with EvRequest r => [r] | _ => [] end) t.

Definition is_dispatch (r : Request) : bool :=
  (route r =? dispatch_route)%string.

Definition dispatches (t : list event) : list Request :=
  filter is_dispatch (requests t).

Definition is_prompt (e : event) : bool :=
  match e with EvPrompt _ => true | _ => false end.

Definition is_git_query (e : event) : bool :=
  match e with EvGitCurrentBranch => true | _ => false end.

Definition is_log (e : event) : bool :=
  match e with EvLogError _ _ | EvLogSuccess _ => true | _ => false end.

(** What the command does to the outside world, its own log lines apart. *)
Definition actions (t : list event) : list event :=
  filter (fun e => negb (is_log e)) t.

(** The event with the headers of a dispatch request dropped. *)
Definition erase_dispatch_headers (e : event) : event :=
  match e with
  | EvRequest r =>
      if is_dispatch r then
        EvRequest {| route := route r;
                     headers := [];
                     param_owner := param_owner r;
                     param_repo := param_repo r;
                     param_workflow_id := param_workflow_id r;
                     param_ref := param_ref r |}
      else e
  | _ => e
  end.

(** The world [w] with another value of [GITHUB_TOKEN]. *)
Definition with_token (w : World) (token : option string) : World :=
  {| env_GITHUB_TOKEN := token;
     env_CI := env_CI w;
     remote := remote w;
     pathExists := pathExists w;
     prompt_choice := prompt_choice w;
     current_branch := current_branch w |}.


Definition is_configuration_error (e : exn) : Prop :=
  e = token_missing \/ e = name_missing_on_ci.

Definition is_not_found_error (e : exn) : Prop :=
  exists workflowId, e = workflow_not_found workflowId.

(** ** The words of the specification *)

(** Two strings are equal case-insensitively. *)
Definition ci_eq (rt : Runtime) (a b : string) : Prop :=
  toLowerCase rt a = toLowerCase rt b.

Definition conventional_path (workflowName : string) : string :=
  ".github/workflows/" ++ workflowName ++ ".yml".

(** A workflow answers to a name: by its own name, or by the path that the
    lowercased name conventionally has. *)
Definition answers_to (rt : Runtime) (workflowName : string) (x : Workflow) : Prop :=
  ci_eq rt (name x) workflowName
  \/ toLowerCase rt (path x) = conventional_path (toLowerCase rt workflowName).

(** The four conditions of eligibility. *)
Definition eligible (rt : Runtime) (w : World) (x : Workflow) : Prop :=
  name x <> EmptyString
  /\ path x <> EmptyString
  /\ state x = "active"
  /\ pathExists w (path_join rt (EXPO_DIR rt) (path x)) = true.

Definition eligibleb (rt : Runtime) (w : World) (x : Workflow) : bool :=
  truthy (name x) && truthy (path x) && (state x =? "active")%string
  && pathExists w (path_join rt (EXPO_DIR rt) (path x)).

(** The file-system checks that listing performs, in order. *)
Definition existence_checks (rt : Runtime) (l : list Workflow) : list event :=
  flat_map (fun x =>
              if truthy (name x) && truthy (path x) && (state x =? "active")%string
              then [EvPathExists (path_join rt (EXPO_DIR rt) (path x))]
              else []) l.

(** A consistent comparison function, as ECMAScript requires of the argument
    of [sort] and promises of [localeCompare]. *)
Definition consistent_comparator {A} (cmp : A -> A -> Z) : Prop :=
  (forall a, cmp a a = 0)
  /\ (forall a b, cmp a b = 0 -> cmp b a = 0)
  /\ (forall a b c, cmp a b = 0 -> cmp b c = 0 -> cmp a c = 0)
  /\ (forall a b c, cmp a b < 0 -> cmp b c < 0 -> cmp a c < 0)
  /\ (forall a b c, cmp a b > 0 -> cmp b c > 0 -> cmp a c > 0).

(** ** A concrete runtime and concrete worlds *)

Definition lower_ascii (c : ascii) : ascii :=
  let n := nat_of_ascii c in
  if ((65 <=? n) && (n <=? 90))%nat then ascii_of_nat (n + 32) else c.

Fixpoint lower_string (s : string) : string :=
  match s with
  | EmptyString => EmptyString
  | String c s' => String (lower_ascii c) (lower_string s')
  end.

Definition compare_code_units (a b : string) : Z :=
  match String.compare a b with
  | Lt => -1
  | Eq => 0
  | Gt => 1
  end.

(** ASCII case folding, comparison by code units, paths joined by a slash. *)
Definition node : Runtime :=
  {| toLowerCase := lower_string;
     localeCompare := compare_code_units;
     path_join := fun a b => a ++ "/" ++ b;
     EXPO_DIR := "/expo";
     JSON_stringify := fun response => "{status: " ++ string_of_Z (status response) ++ "}" |}.

Definition Build : Workflow :=
  {| id := 1; name := "Build"; path := ".github/workflows/build.yml"; state := "active" |}.
Definition Test : Workflow :=
  {| id := 2; name := "Test"; path := ".github/workflows/test.yml"; state := "active" |}.
Definition Retired : Workflow :=
  {| id := 3; name := "Retired"; path := ".github/workflows/retired.yml";
     state := "disabled_manually" |}.
Definition Gone : Workflow :=
  {| id := 4; name := "Gone"; path := ".github/workflows/gone.yml"; state := "active" |}.

Definition remote_workflows : list Workflow := [Test; Gone; Build; Retired].

(** How [@octokit/request] settles the promise of a request, given what
    the server answers: it rejects with an [HttpError] when the status is
    304 or is 400 or above, and when the request itself fails; otherwise it
    resolves with the response. *)
Definition octokit (answer : Reply Response) : Reply Response :=
  match answer with
  | Resolved response =>
      if (status response =? 304) || (400 <=? status response)
      then Rejected "HttpError"
      else Resolved response
  | Rejected reason => Rejected reason
  end.


(** The server lists [Test], [Build], a workflow whose file is gone and a
    disabled one, and answers a dispatch with [dispatch_status]. *)
Definition github_server (dispatch_status : Z) (r : Request) : Reply Response :=
  if is_dispatch r then Resolved {| status := dispatch_status; workflows := [] |}
  else Resolved {| status := 200; workflows := remote_workflows |}.

(** That server, reached through the library. *)
Definition github (dispatch_status : Z) (r : Request) : Reply Response :=
  octokit (github_server dispatch_status r).

(** The working copy holds every workflow file but that of [Gone]. *)
Definition checkout (p : string) : bool :=
  negb (p =? "/expo/.github/workflows/gone.yml")%string.

(** A developer's desk: token set, not on the CI, the first choice picked
    at a prompt, branch [main] checked out. *)
Definition desk (dispatch_status : Z) : World :=
  {| env_GITHUB_TOKEN := Some "secret";
     env_CI := None;
     remote := github dispatch_status;
     pathExists := checkout;
     prompt_choice := Some 0%nat;
     current_branch := Resolved "main" |}.

(** What listing records on these worlds. *)
Definition desk_listing_trace : list event :=
  [EvRequest listing_request;
   EvPathExists "/expo/.github/workflows/test.yml";
   EvPathExists "/expo/.github/workflows/gone.yml";
   EvPathExists "/expo/.github/workflows/build.yml"].

(** The same on the CI. *)
Definition ci : World :=
  {| env_GITHUB_TOKEN := Some "secret";
     env_CI := Some "true";
     remote := github 204;
     pathExists := checkout;
     prompt_choice := None;
     current_branch := Resolved "main" |}.

(** The same where git cannot name a branch. *)
Definition no_branch : World :=
  {| env_GITHUB_TOKEN := Some "secret";
     env_CI := None;
     remote := github 204;
     pathExists := checkout;
     prompt_choice := Some 0%nat;
     current_branch := Rejected "git" |}.

(** The order that [sort] builds from a comparison function, and the
    members of one class of the comparison: those that compare equal to
    [c]. *)
Definition before {A} (cmp : A -> A -> Z) (a b : A) : Prop := cmp a b <= 0.

Definition same_class {A} (cmp : A -> A -> Z) (c x : A) : bool := cmp x c =? 0.

(** ** Further worlds and observations *)

(** The world [w] with another [CI] variable and another user at the
    prompt. *)
Definition with_interaction (w : World) (ci_variable : option string)
    (choice : option nat) : World :=
  {| env_GITHUB_TOKEN := env_GITHUB_TOKEN w;
     env_CI := ci_variable;
     remote := remote w;
     pathExists := pathExists w;
     prompt_choice := choice;
     current_branch := current_branch w |}.

(** A desk whose network is down: every request rejects. *)
Definition offline : World :=
  {| env_GITHUB_TOKEN := Some "secret";
     env_CI := None;
     remote := fun _ => Rejected "ENOTFOUND";
     pathExists := checkout;
     prompt_choice := Some 0%nat;
     current_branch := Resolved "main" |}.

(** A remote that lists the same workflows in another order, and one that
    lists a workflow whose identifier is 0. *)
Definition github_reordered (r : Request) : Reply Response :=
  if is_dispatch r then Resolved {| status := 204; workflows := [] |}
  else Resolved {| status := 200; workflows := [Retired; Build; Gone; Test] |}.

Definition desk_reordered : World :=
  {| env_GITHUB_TOKEN := Some "secret";
     env_CI := None;
     remote := github_reordered;
     pathExists := checkout;
     prompt_choice := Some 0%nat;
     current_branch := Resolved "main" |}.

Definition Nightly : Workflow :=
  {| id := 0; name := "Nightly"; path := ".github/workflows/nightly.yml";
     state := "active" |}.

Definition desk_with_zero : World :=
  {| env_GITHUB_TOKEN := Some "secret";
     env_CI := None;
     remote := fun r =>
       if is_dispatch r then Resolved {| status := 204; workflows := [] |}
       else Resolved {| status := 200; workflows := [Nightly; Build] |};
     pathExists := checkout;
     prompt_choice := Some 0%nat;
     current_branch := Resolved "main" |}.

(** The first three tests of the predicate of [getWorkflowsAsync], which
    decide whether the file system is asked at all. *)
Definition plausible (x : Workflow) : bool :=
  truthy (name x) && truthy (path x) && (state x =? "active")%string.

(** A stretch of trace that neither dispatches nor logs. *)
Definition quiet (t : list event) : Prop :=
  dispatches t = [] /\ filter is_log t = [].

(** * Properties *)

(** ** Sorting with a consistent comparison function *)

Section Sorting.

Context {A : Type}.
Variable cmp : A -> A -> Z.

Local Abbreviation le := (before cmp).
Local Abbreviation class := (same_class cmp).

Lemma insert_perm (x : A) (l : list A) : Permutation (insert cmp x l) (x :: l).
Proof.
  induction l as [|y l IH]; simpl.
  - apply Permutation_refl.
  - destruct (cmp x y <=? 0).
    + apply Permutation_refl.
    + eapply perm_trans; [apply perm_skip, IH | apply perm_swap].
Qed.

Lemma sort_perm (l : list A) : Permutation (sort cmp l) l.
Proof.
  induction l as [|x l IH]; simpl.
  - apply perm_nil.
  - eapply perm_trans; [apply insert_perm | apply perm_skip, IH].
Qed.

(** Members that compare [<= 0] in their order of arrival are never
    exchanged: a sublist of such members comes out as it went in. *)
Lemma insert_keeps_order (P : A -> bool) (x : A) (l : list A) :
  (forall a b, P a = true -> P b = true -> cmp a b <= 0) ->
  filter P (insert cmp x l) = filter P (x :: l).
Proof.
  intros HP. induction l as [|y l IH]; simpl.
  - reflexivity.
  - destruct (cmp x y <=? 0) eqn:Hxy; simpl.
    + reflexivity.
    + rewrite IH. simpl.
      destruct (P x) eqn:Px, (P y) eqn:Py; try reflexivity.
      apply Z.leb_gt in Hxy. specialize (HP x y Px Py). lia.
Qed.

Lemma sort_keeps_order (P : A -> bool) (l : list A) :
  (forall a b, P a = true -> P b = true -> cmp a b <= 0) ->
  filter P (sort cmp l) = filter P l.
Proof.
  intros HP. induction l as [|x l IH]; simpl.
  - reflexivity.
  - rewrite insert_keeps_order by exact HP. simpl. now rewrite IH.
Qed.

Hypothesis consistent : consistent_comparator cmp.

Lemma cmp_refl (a : A) : cmp a a = 0.
Proof. destruct consistent as (H & _). apply H. Qed.

Lemma cmp_sym (a b : A) : cmp a b = 0 -> cmp b a = 0.
Proof. destruct consistent as (_ & H & _). apply H. Qed.

Lemma cmp_flip (a b : A) : cmp a b > 0 -> cmp b a < 0.
Proof.
  destruct consistent as (Hr & Hs & _ & Hlt & Hgt). intros Hab.
  destruct (Z.compare_spec (cmp b a) 0) as [E|L|G].
  - apply Hs in E. lia.
  - exact L.
  - assert (cmp a a > 0) by (apply (Hgt a b a); lia).
    rewrite Hr in *. lia.
Qed.

Lemma cmp_flip' (a b : A) : cmp a b < 0 -> cmp b a > 0.
Proof.
  destruct consistent as (Hr & Hs & _ & Hlt & Hgt). intros Hab.
  destruct (Z.compare_spec (cmp b a) 0) as [E|L|G].
  - apply Hs in E. lia.
  - assert (cmp a a < 0) by (apply (Hlt a b a); lia).
    rewrite Hr in *. lia.
  - lia.
Qed.

Lemma cmp_eq_lt (a b c : A) : cmp a b = 0 -> cmp b c < 0 -> cmp a c < 0.
Proof.
  destruct consistent as (Hr & Hs & Ht & Hlt & Hgt). intros Hab Hbc.
  destruct (Z.compare_spec (cmp a c) 0) as [E|L|G].
  - assert (cmp b c = 0) by (apply (Ht b a c); auto). lia.
  - exact L.
  - assert (cmp c a < 0) by (apply cmp_flip; lia).
    assert (cmp b a < 0) by (apply (Hlt b c a); auto).
    apply Hs in Hab. lia.
Qed.

Lemma cmp_lt_eq (a b c : A) : cmp a b < 0 -> cmp b c = 0 -> cmp a c < 0.
Proof.
  destruct consistent as (Hr & Hs & Ht & Hlt & Hgt). intros Hab Hbc.
  destruct (Z.compare_spec (cmp a c) 0) as [E|L|G].
  - assert (cmp a b = 0) by (apply (Ht a c b); auto). lia.
  - exact L.
  - assert (cmp c a < 0) by (apply cmp_flip; lia).
    assert (cmp c b < 0) by (apply (Hlt c a b); auto).
    apply Hs in Hbc. lia.
Qed.

(** Any two values are comparable. *)
Lemma before_total (a b : A) : le a b \/ le b a.
Proof.
  unfold before. destruct (Z.compare_spec (cmp a b) 0) as [E|L|G].
  - left. lia.
  - left. lia.
  - right. assert (cmp b a < 0) by (apply cmp_flip; lia). lia.
Qed.

Lemma before_trans (a b c : A) : le a b -> le b c -> le a c.
Proof.
  unfold before. intros Hab Hbc.
  destruct consistent as (Hr & Hs & Ht & Hlt & Hgt).
  destruct (Z.eq_dec (cmp a b) 0) as [E1|N1], (Z.eq_dec (cmp b c) 0) as [E2|N2].
  - rewrite (Ht a b c); auto. lia.
  - assert (cmp a c < 0) by (apply (cmp_eq_lt a b c); auto; lia). lia.
  - assert (cmp a c < 0) by (apply (cmp_lt_eq a b c); auto; lia). lia.
  - assert (cmp a c < 0) by (apply (Hlt a b c); lia). lia.
Qed.

Lemma before_antisym (a b : A) : le a b -> le b a -> cmp a b = 0.
Proof.
  unfold before. intros Hab Hba.
  destruct (Z.eq_dec (cmp a b) 0) as [E|N]; [exact E|].
  assert (cmp b a > 0) by (apply cmp_flip'; lia). lia.
Qed.

Lemma same_class_before (c a b : A) :
  class c a = true -> class c b = true -> cmp a b <= 0.
Proof.
  unfold same_class. intros Ha Hb.
  apply Z.eqb_eq in Ha. apply Z.eqb_eq in Hb.
  destruct consistent as (_ & Hs & Ht & _).
  rewrite (Ht a c b); auto. lia.
Qed.

Lemma insert_sorted (x : A) (l : list A) :
  StronglySorted le l -> StronglySorted le (insert cmp x l).
Proof.
  induction 1 as [|y l Hl IH Hy]; simpl.
  - constructor; constructor.
  - destruct (cmp x y <=? 0) eqn:Hxy.
    + apply Z.leb_le in Hxy. constructor.
      * constructor; assumption.
      * constructor; [exact Hxy|].
        eapply Forall_impl; [|exact Hy].
        intros z Hz. now apply (before_trans x y z).
    + apply Z.leb_gt in Hxy. constructor; [exact IH|].
      eapply Permutation_Forall; [apply Permutation_sym, insert_perm|].
      constructor; [|exact Hy].
      unfold before. assert (cmp y x < 0) by (apply cmp_flip; lia). lia.
Qed.

Lemma sort_sorted (l : list A) : StronglySorted le (sort cmp l).
Proof.
  induction l as [|x l IH]; simpl.
  - constructor.
  - now apply insert_sorted.
Qed.

(** The result of a stable sort does not depend on the algorithm: two
    sorted lists in which every class of the comparison appears as the
    same sublist are the same list. *)
Lemma sorted_stable_unique (l1 l2 : list A) :
  StronglySorted le l1 -> StronglySorted le l2 ->
  (forall c, filter (class c) l1 = filter (class c) l2) ->
  l1 = l2.
Proof.
  intros S1. revert l2.
  induction S1 as [|a l1 S1 IH Ha]; intros l2 S2 Hc.
  - destruct l2 as [|b l2]; [reflexivity|].
    specialize (Hc b). simpl in Hc. unfold same_class at 1 in Hc.
    rewrite cmp_refl in Hc. discriminate.
  - destruct S2 as [|b l2 S2 Hb].
    + specialize (Hc a). simpl in Hc. unfold same_class at 1 in Hc.
      rewrite cmp_refl in Hc. discriminate.
    + assert (Hab : cmp a b = 0).
      { apply before_antisym.
        - assert (In b (filter (class b) (a :: l1))) as Hin.
          { rewrite Hc. simpl. unfold same_class at 1. rewrite cmp_refl.
            now left. }
          apply filter_In in Hin. destruct Hin as [[<-|Hin] _].
          + unfold before. rewrite cmp_refl. lia.
          + rewrite Forall_forall in Ha. now apply Ha.
        - assert (In a (filter (class a) (b :: l2))) as Hin.
          { rewrite <- Hc. simpl. unfold same_class at 1. rewrite cmp_refl.
            now left. }
          apply filter_In in Hin. destruct Hin as [[<-|Hin] _].
          + unfold before. rewrite cmp_refl. lia.
          + rewrite Forall_forall in Hb. now apply Hb. }
      assert (a = b) as <-.
      { specialize (Hc a). simpl in Hc. unfold same_class in Hc.
        rewrite cmp_refl, (cmp_sym _ _ Hab) in Hc. simpl in Hc. congruence. }
      f_equal. apply IH; [exact S2|].
      intros c. specialize (Hc c). simpl in Hc.
      destruct (class c a); congruence.
Qed.

(** So this model of [sort] is the stable sort, whichever algorithm the
    engine runs. *)
Lemma sort_is_the_stable_sort (l l' : list A) :
  StronglySorted le l' ->
  (forall c, filter (class c) l' = filter (class c) l) ->
  l' = sort cmp l.
Proof.
  intros S' H'. apply sorted_stable_unique; [exact S' | apply sort_sorted |].
  intros c. rewrite H'. symmetry. apply sort_keeps_order.
  intros a b. apply same_class_before.
Qed.

End Sorting.

(** ** The comparison by code units is consistent *)

Lemma ascii_compare_refl (a : ascii) : Ascii.compare a a = Eq.
Proof. unfold Ascii.compare. apply N.compare_refl. Qed.

Lemma ascii_compare_lt_trans (a b c : ascii) :
  Ascii.compare a b = Lt -> Ascii.compare b c = Lt -> Ascii.compare a c = Lt.
Proof.
  unfold Ascii.compare. rewrite !N.compare_lt_iff. apply N.lt_trans.
Qed.

Lemma string_compare_refl (s : string) : String.compare s s = Eq.
Proof.
  induction s as [|a s IH]; simpl.
  - reflexivity.
  - now rewrite ascii_compare_refl.
Qed.

Lemma string_compare_lt_trans (a b c : string) :
  String.compare a b = Lt -> String.compare b c = Lt -> String.compare a c = Lt.
Proof.
  revert b c. induction a as [|x a IH]; intros [|y b] [|z c]; simpl;
    try congruence.
  destruct (Ascii.compare x y) eqn:Hxy; try discriminate;
    destruct (Ascii.compare y z) eqn:Hyz; try discriminate; intros Hab Hbc.
  - apply Ascii.compare_eq_iff in Hxy. apply Ascii.compare_eq_iff in Hyz.
    subst. rewrite ascii_compare_refl. now apply (IH b c).
  - apply Ascii.compare_eq_iff in Hxy. subst. now rewrite Hyz.
  - apply Ascii.compare_eq_iff in Hyz. subst. now rewrite Hxy.
  - now rewrite (ascii_compare_lt_trans x y z).
Qed.

Lemma string_compare_gt_lt (a b : string) :
  String.compare a b = Gt <-> String.compare b a = Lt.
Proof.
  rewrite (String.compare_antisym b a).
  destruct (String.compare a b); simpl; split; congruence.
Qed.

Lemma compare_code_units_consistent : consistent_comparator compare_code_units.
Proof.
  unfold consistent_comparator, compare_code_units.
  repeat split.
  - intros a. now rewrite string_compare_refl.
  - intros a b. destruct (String.compare a b) eqn:E; try lia. intros _.
    apply String.compare_eq_iff in E. subst. now rewrite string_compare_refl.
  - intros a b c.
    destruct (String.compare a b) eqn:E1; try lia.
    destruct (String.compare b c) eqn:E2; try lia. intros _ _.
    apply String.compare_eq_iff in E1. apply String.compare_eq_iff in E2.
    subst. now rewrite string_compare_refl.
  - intros a b c.
    destruct (String.compare a b) eqn:E1; try lia.
    destruct (String.compare b c) eqn:E2; try lia. intros _ _.
    rewrite (string_compare_lt_trans a b c); auto. lia.
  - intros a b c.
    destruct (String.compare a b) eqn:E1; try lia.
    destruct (String.compare b c) eqn:E2; try lia. intros _ _.
    apply string_compare_gt_lt in E1. apply string_compare_gt_lt in E2.
    assert (String.compare a c = Gt) as ->.
    { apply string_compare_gt_lt. now apply (string_compare_lt_trans c b a). }
    lia.
Qed.

(** ** What each function of the command computes *)

Section Runs.

Variable rt : Runtime.

Lemma select_map {A} (f : A -> bool) (l : list A) :
  select l (map f l) = filter f l.
Proof.
  induction l as [|x l IH]; simpl.
  - reflexivity.
  - rewrite IH. reflexivity.
Qed.

Lemma eligibleAsync_run (w : World) (x : Workflow) :
  eligibleAsync rt x w = (Ok (eligibleb rt w x), existence_checks rt [x]).
Proof.
  unfold eligibleAsync, eligibleb, existence_checks. simpl.
  destruct (truthy (name x) && truthy (path x) && (state x =? "active")%string).
  - reflexivity.
  - reflexivity.
Qed.

Lemma Promise_all_eligibleAsync (w : World) (l : list Workflow) :
  Promise_all (map (eligibleAsync rt) l) w
  = (Ok (map (eligibleb rt w) l), existence_checks rt l).
Proof.
  induction l as [|x l IH].
  - reflexivity.
  - cbn [map Promise_all]. unfold bind at 1.
    rewrite eligibleAsync_run. unfold bind at 1. rewrite IH.
    unfold ret, existence_checks. simpl. now rewrite !app_nil_r.
Qed.

Lemma filterAsync_eligibleAsync (w : World) (l : list Workflow) :
  filterAsync l (eligibleAsync rt) w
  = (Ok (filter (eligibleb rt w) l), existence_checks rt l).
Proof.
  unfold filterAsync, bind. rewrite Promise_all_eligibleAsync.
  unfold ret. now rewrite select_map, app_nil_r.
Qed.

Lemma request_run (w : World) (r : Request) :
  request r w
  = match remote w r with
    | Resolved response => (Ok response, [EvRequest r])
    | Rejected reason => (Throw (Rejection reason), [EvRequest r])
    end.
Proof.
  unfold request, bind, ask, emit, await. simpl.
  destruct (remote w r); reflexivity.
Qed.

Lemma getWorkflowsAsync_run (w : World) :
  getWorkflowsAsync rt w
  = match remote w listing_request with
    | Resolved response =>
        (Ok (sort (by_name rt) (filter (eligibleb rt w) (workflows response))),
         EvRequest listing_request :: existence_checks rt (workflows response))
    | Rejected reason => (Throw (Rejection reason), [EvRequest listing_request])
    end.
Proof.
  unfold getWorkflowsAsync. unfold bind at 1. rewrite request_run.
  destruct (remote w listing_request) as [response|reason]; [|reflexivity].
  unfold bind. rewrite filterAsync_eligibleAsync. unfold ret.
  now rewrite app_nil_r.
Qed.

Lemma findWorkflowIdAsync_named (w : World) (l : list Workflow) (n : string) :
  truthy n = true ->
  findWorkflowIdAsync rt l (Some n) w
  = (Ok (option_map id (find (matches rt (toLowerCase rt n)) l)), []).
Proof.
  intros Hn. unfold findWorkflowIdAsync. simpl. rewrite Hn. reflexivity.
Qed.

Lemma promptWorkflowIdAsync_run (w : World) (l : list Workflow) :
  promptWorkflowIdAsync l w
  = (match prompt_choice w with
     | Some i =>
         match nth_error l i with
         | Some x => Ok (id x)
         | None => Throw (Rejection "prompt")
         end
     | None => Throw (Rejection "prompt")
     end, [EvPrompt (workflow_question l)]).
Proof.
  unfold promptWorkflowIdAsync, inquirer_prompt, bind, ask, emit. simpl.
  destruct (prompt_choice w) as [i|]; [|reflexivity].
  rewrite nth_error_map. destruct (nth_error l i); reflexivity.
Qed.

Lemma findWorkflowIdAsync_unnamed (w : World) (l : list Workflow)
    (workflowName : option string) :
  truthy_opt workflowName = false ->
  findWorkflowIdAsync rt l workflowName w
  = if truthy_opt (env_CI w) then (Throw name_missing_on_ci, [])
    else
      match promptWorkflowIdAsync l w with
      | (Ok n, t) => (Ok (Some n), t)
      | (Throw e, t) => (Throw e, t)
      | (Exit c, t) => (Exit c, t)
      end.
Proof.
  intros Hn. unfold findWorkflowIdAsync. rewrite Hn. simpl.
  unfold bind at 1. unfold ask.
  destruct (truthy_opt (env_CI w)); [reflexivity|].
  unfold bind. destruct (promptWorkflowIdAsync l w) as [[n|e|c] t];
    try reflexivity.
  unfold ret. now rewrite app_nil_r.
Qed.

Lemma reference_run (w : World) (options : CommandOptions) :
  reference options w
  = if truthy_opt (ref options) then (Ok (the_string (ref options)), [])
    else
      match current_branch w with
      | Resolved branch => (Ok branch, [EvGitCurrentBranch])
      | Rejected reason => (Throw (Rejection reason), [EvGitCurrentBranch])
      end.
Proof.
  unfold reference. destruct (truthy_opt (ref options)); [reflexivity|].
  unfold Git_getCurrentBranchNameAsync, bind, ask, emit, await. simpl.
  destruct (current_branch w); reflexivity.
Qed.

Lemma dispatchWorkflowAsync_run (w : World) (n : Z) (r : string) :
  dispatchWorkflowAsync rt n r w
  = let req := dispatch_request (env_GITHUB_TOKEN w) n r in
    match remote w req with
    | Resolved response =>
        if status response =? 204 then
          (Ok tt,
           [EvRequest req;
            EvLogSuccess (emoji_party ++ " Successfully dispatched workflow event ")])
        else
          (Exit 1,
           [EvRequest req;
            EvLogError (emoji_collision ++ " Dispatching workflow failed with response")
                       (JSON_stringify rt response)])
    | Rejected reason => (Throw (Rejection reason), [EvRequest req])
    end.
Proof.
  unfold dispatchWorkflowAsync. unfold bind at 1. unfold ask.
  unfold bind at 1. rewrite request_run. cbv zeta.
  destruct (remote w _) as [response|reason]; [|reflexivity].
  destruct (status response =? 204); reflexivity.
Qed.

(** The stages of [main], one after the other. *)
Lemma main_run (w : World) (workflowName : option string) (options : CommandOptions) :
  main rt workflowName options w
  = if truthy_opt (env_GITHUB_TOKEN w) then
      match getWorkflowsAsync rt w with
      | (Ok l, t1) =>
          match findWorkflowIdAsync rt l workflowName w with
          | (Ok workflowId, t2) =>
              match reference options w with
              | (Ok r, t3) =>
                  match workflowId with
                  | Some n =>
                      if negb (n =? 0) && existsb (fun x => id x =? n) l then
                        (fst (dispatchWorkflowAsync rt n r w),
                         (t1 ++ t2 ++ t3 ++ snd (dispatchWorkflowAsync rt n r w))%list)
                      else (Throw (workflow_not_found workflowId), (t1 ++ t2 ++ t3)%list)
                  | None => (Throw (workflow_not_found None), (t1 ++ t2 ++ t3)%list)
                  end
              | (Throw e, t3) => (Throw e, (t1 ++ t2 ++ t3)%list)
              | (Exit c, t3) => (Exit c, (t1 ++ t2 ++ t3)%list)
              end
          | (Throw e, t2) => (Throw e, (t1 ++ t2)%list)
          | (Exit c, t2) => (Exit c, (t1 ++ t2)%list)
          end
      | (Throw e, t1) => (Throw e, t1)
      | (Exit c, t1) => (Exit c, t1)
      end
    else (Throw token_missing, []).
Proof.
  unfold main. unfold bind at 1. unfold ask.
  destruct (truthy_opt (env_GITHUB_TOKEN w)); [|reflexivity].
  cbn [negb]. unfold bind at 1.
  destruct (getWorkflowsAsync rt w) as [[l|e|c] t1]; try reflexivity.
  unfold bind at 1.
  destruct (findWorkflowIdAsync rt l workflowName w) as [[workflowId|e|c] t2];
    try reflexivity.
  unfold bind at 1.
  destruct (reference options w) as [[r|e|c] t3]; try reflexivity.
  destruct workflowId as [n|]; simpl.
  - destruct (n =? 0); simpl.
    + unfold throw. now rewrite !app_nil_r.
    + destruct (existsb (fun x => id x =? n) l); simpl.
      * destruct (dispatchWorkflowAsync rt n r w). reflexivity.
      * unfold throw. now rewrite !app_nil_r.
  - unfold throw. now rewrite !app_nil_r.
Qed.

End Runs.

(** ** Listing *)

Lemma truthy_true (s : string) : truthy s = true <-> s <> EmptyString.
Proof.
  destruct s; simpl; split; intros H; congruence.
Qed.

Lemma eligibleb_true (rt : Runtime) (w : World) (x : Workflow) :
  eligibleb rt w x = true <-> eligible rt w x.
Proof.
  unfold eligibleb, eligible.
  rewrite !andb_true_iff, !truthy_true, String.eqb_eq. tauto.
Qed.

(** C2: every workflow that the listing operation returns is a candidate of
    the response with a non-empty name, a non-empty path, the state
    ["active"] and a path that exists locally, and every candidate that
    fails one of the four conditions is left out; the candidates that pass
    are all returned, as many times as they were listed. *)
Theorem listing_returns_exactly_the_eligible (rt : Runtime) (w : World)
    (response : Response) :
  remote w listing_request = Resolved response ->
  exists l t,
    getWorkflowsAsync rt w = (Ok l, t)
    /\ (forall x, In x l -> In x (workflows response) /\ eligible rt w x)
    /\ (forall x, In x (workflows response) -> ~ eligible rt w x -> ~ In x l)
    /\ Permutation l (filter (eligibleb rt w) (workflows response)).
Proof.
  intros Hremote. rewrite getWorkflowsAsync_run, Hremote.
  eexists. eexists. split; [reflexivity|].
  assert (Hin : forall x,
             In x (sort (by_name rt) (filter (eligibleb rt w) (workflows response)))
             -> In x (workflows response) /\ eligible rt w x).
  { intros x Hx.
    apply (Permutation_in _ (sort_perm _ _)) in Hx.
    apply filter_In in Hx. now rewrite <- eligibleb_true. }
  split; [exact Hin|]. split.
  - intros x _ Hno Hx. apply Hno. now apply Hin.
  - apply sort_perm.
Qed.

Lemma listing_returns_exactly_the_eligible_witness :
  exists l t,
    getWorkflowsAsync node (desk 204) = (Ok l, t)
    /\ (forall x, In x l ->
          In x remote_workflows /\ eligible node (desk 204) x)
    /\ (forall x, In x remote_workflows ->
          ~ eligible node (desk 204) x -> ~ In x l)
    /\ Permutation l (filter (eligibleb node (desk 204)) remote_workflows).
Proof.
  apply (listing_returns_exactly_the_eligible node (desk 204)
           {| status := 200; workflows := remote_workflows |}).
  reflexivity.
Defined.

(** C7: the list that the listing operation returns is the filtered list
    sorted in ascending order of name under [localeCompare].  The sort is
    stable: workflows of equal name, and more generally workflows whose
    names compare equal, keep the order they had in the filtered list.  The
    order is total: any two workflows are comparable. *)
Theorem listing_is_sorted_by_name (rt : Runtime) (w : World)
    (response : Response) :
  consistent_comparator (localeCompare rt) ->
  remote w listing_request = Resolved response ->
  exists filtered t' l t,
    filterAsync (workflows response) (eligibleAsync rt) w = (Ok filtered, t')
    /\ getWorkflowsAsync rt w = (Ok l, t)
    /\ StronglySorted (fun a b => localeCompare rt (name a) (name b) <= 0) l
    /\ Permutation l filtered
    /\ (forall n,
          filter (fun x => (name x =? n)%string) l
          = filter (fun x => (name x =? n)%string) filtered)
    /\ (forall n,
          filter (fun x => localeCompare rt (name x) n =? 0) l
          = filter (fun x => localeCompare rt (name x) n =? 0) filtered)
    /\ (forall a b : Workflow,
          localeCompare rt (name a) (name b) <= 0
          \/ localeCompare rt (name b) (name a) <= 0).
Proof.
  intros Hcmp Hremote.
  rewrite getWorkflowsAsync_run, Hremote, filterAsync_eligibleAsync.
  assert (Hby : consistent_comparator (by_name rt)).
  { destruct Hcmp as (Hr & Hs & Ht & Hlt & Hgt). unfold by_name.
    repeat split; intros.
    - apply Hr.
    - now apply Hs.
    - now apply (Ht _ (name b)).
    - now apply (Hlt _ (name b)).
    - now apply (Hgt _ (name b)). }
  destruct Hcmp as (Hr & Hs & Ht & _).
  do 4 eexists. split; [reflexivity|]. split; [reflexivity|]. repeat split.
  - apply (sort_sorted (by_name rt) Hby).
  - apply sort_perm.
  - intros n. apply sort_keeps_order. intros a b Ha Hb.
    apply String.eqb_eq in Ha. apply String.eqb_eq in Hb.
    unfold by_name. rewrite Ha, Hb, Hr. lia.
  - intros n. apply sort_keeps_order. intros a b Ha Hb.
    apply Z.eqb_eq in Ha. apply Z.eqb_eq in Hb.
    unfold by_name. rewrite (Ht _ n); [lia | exact Ha | now apply Hs].
  - intros a b. apply (before_total (by_name rt) Hby a b).
Qed.

Lemma listing_is_sorted_by_name_witness :
  exists filtered t' l t,
    filterAsync remote_workflows (eligibleAsync node) (desk 204)
    = (Ok filtered, t')
    /\ getWorkflowsAsync node (desk 204) = (Ok l, t)
    /\ StronglySorted (fun a b => localeCompare node (name a) (name b) <= 0) l
    /\ Permutation l filtered
    /\ (forall n,
          filter (fun x => (name x =? n)%string) l
          = filter (fun x => (name x =? n)%string) filtered)
    /\ (forall n,
          filter (fun x => localeCompare node (name x) n =? 0) l
          = filter (fun x => localeCompare node (name x) n =? 0) filtered)
    /\ (forall a b : Workflow,
          localeCompare node (name a) (name b) <= 0
          \/ localeCompare node (name b) (name a) <= 0).
Proof.
  apply (listing_is_sorted_by_name node (desk 204)
           {| status := 200; workflows := remote_workflows |}).
  - exact compare_code_units_consistent.
  - reflexivity.
Defined.

(** The scenario of the specification: both active workflows are listed,
    [Build] before [Test]. *)
Example listing_scenario :
  outcome (getWorkflowsAsync node) (desk 204) = Ok [Build; Test].
Proof. reflexivity. Qed.

(** ** Resolution *)

Lemma findWorkflowIdAsync_run (rt : Runtime) (w : World) (l : list Workflow)
    (workflowName : option string) :
  findWorkflowIdAsync rt l workflowName w
  = if truthy_opt workflowName then
      (Ok (option_map id
             (find (matches rt (toLowerCase rt (the_string workflowName))) l)),
       [])
    else if truthy_opt (env_CI w) then (Throw name_missing_on_ci, [])
    else
      (match prompt_choice w with
       | Some i =>
           match nth_error l i with
           | Some x => Ok (Some (id x))
           | None => Throw (Rejection "prompt")
           end
       | None => Throw (Rejection "prompt")
       end, [EvPrompt (workflow_question l)]).
Proof.
  destruct (truthy_opt workflowName) eqn:Hn.
  - destruct workflowName as [n|]; [|discriminate].
    now apply findWorkflowIdAsync_named.
  - rewrite findWorkflowIdAsync_unnamed by exact Hn.
    destruct (truthy_opt (env_CI w)); [reflexivity|].
    rewrite promptWorkflowIdAsync_run.
    destruct (prompt_choice w) as [i|]; [|reflexivity].
    destruct (nth_error l i); reflexivity.
Qed.

Lemma existsb_id (l : list Workflow) (x : Workflow) :
  In x l -> existsb (fun workflow => strict_eq_id (id workflow) (Some (id x))) l = true.
Proof.
  intros Hx. apply existsb_exists. exists x. split; [exact Hx|].
  simpl. apply Z.eqb_refl.
Qed.

(** C8: an identifier that resolution returns, by matching the name or from
    the prompt, is the [id] of a workflow of the list passed in, so the
    membership test of [main] holds of it. *)
Theorem resolved_id_is_listed (rt : Runtime) (w : World) (l : list Workflow)
    (workflowName : option string) (n : Z) (t : list event) :
  findWorkflowIdAsync rt l workflowName w = (Ok (Some n), t) ->
  In n (map id l)
  /\ existsb (fun workflow => strict_eq_id (id workflow) (Some n)) l = true.
Proof.
  rewrite findWorkflowIdAsync_run. intros Hrun.
  assert (exists x, In x l /\ id x = n) as (x & Hx & <-).
  { destruct (truthy_opt workflowName).
    - destruct (find _ l) as [x|] eqn:Hfind; simpl in Hrun; [|discriminate].
      apply find_some in Hfind. exists x. split; [tauto | congruence].
    - destruct (truthy_opt (env_CI w)); [discriminate|].
      destruct (prompt_choice w) as [i|]; [|discriminate].
      destruct (nth_error l i) as [x|] eqn:Hnth; [|discriminate].
      apply nth_error_In in Hnth. exists x. split; [exact Hnth | congruence]. }
  split.
  - now apply in_map.
  - now apply existsb_id.
Qed.

Lemma resolved_id_is_listed_witness :
  (In 2 (map id [Build; Test])
   /\ existsb (fun workflow => strict_eq_id (id workflow) (Some 2)) [Build; Test] = true)
  /\ (In 1 (map id [Build; Test])
      /\ existsb (fun workflow => strict_eq_id (id workflow) (Some 1)) [Build; Test] = true).
Proof.
  split.
  - apply (resolved_id_is_listed node (desk 204) [Build; Test] (Some "TEST") 2 []).
    reflexivity.
  - apply (resolved_id_is_listed node (desk 204) [Build; Test] None 1
             [EvPrompt (workflow_question [Build; Test])]).
    reflexivity.
Defined.

(** C10: an empty name is an absent name.  [findWorkflowIdAsync] and [main]
    run on it as they run on no name: the name is matched against no
    workflow, the error for a missing name is thrown on the CI, and the
    prompt is issued otherwise. *)
Theorem empty_name_is_no_name (rt : Runtime) (w : World) (l : list Workflow)
    (options : CommandOptions) :
  findWorkflowIdAsync rt l (Some EmptyString) w = findWorkflowIdAsync rt l None w
  /\ main rt (Some EmptyString) options w = main rt None options w
  /\ findWorkflowIdAsync rt l (Some EmptyString) w
     = if truthy_opt (env_CI w) then (Throw name_missing_on_ci, [])
       else
         (match prompt_choice w with
          | Some i =>
              match nth_error l i with
              | Some x => Ok (Some (id x))
              | None => Throw (Rejection "prompt")
              end
          | None => Throw (Rejection "prompt")
          end, [EvPrompt (workflow_question l)]).
Proof.
  split; [|split].
  - now rewrite !findWorkflowIdAsync_run.
  - rewrite !main_run.
    destruct (truthy_opt (env_GITHUB_TOKEN w)); [|reflexivity].
    destruct (getWorkflowsAsync rt w) as [[l'|e|c] t1]; reflexivity.
  - now rewrite findWorkflowIdAsync_run.
Qed.

(** An empty name does not select even a workflow whose name is empty. *)
Example empty_name_matches_nothing :
  let nameless := {| id := 7; name := EmptyString; path := "x"; state := "active" |} in
  find (matches node (toLowerCase node EmptyString)) [nameless] = Some nameless
  /\ findWorkflowIdAsync node [nameless] (Some EmptyString) ci
     = (Throw name_missing_on_ci, []).
Proof. split; reflexivity. Qed.

(** ** The precondition *)

(** C4: without [GITHUB_TOKEN] the invocation throws the configuration
    error at once: it performs no effect at all, so neither the listing
    request nor the dispatch request is issued. *)
Theorem missing_token_fails_first (rt : Runtime) (w : World)
    (workflowName : option string) (options : CommandOptions) :
  env_GITHUB_TOKEN w = None ->
  main rt workflowName options w = (Throw token_missing, [])
  /\ is_configuration_error token_missing
  /\ requests (trace (main rt workflowName options) w) = [].
Proof.
  intros Htoken.
  assert (Hrun : main rt workflowName options w = (Throw token_missing, [])).
  { rewrite main_run, Htoken. reflexivity. }
  split; [exact Hrun|]. split.
  - now left.
  - unfold trace. now rewrite Hrun.
Qed.

Lemma missing_token_fails_first_witness :
  main node (Some "test") {| ref := Some "main" |} (with_token (desk 204) None)
  = (Throw token_missing, [])
  /\ is_configuration_error token_missing
  /\ requests (trace (main node (Some "test") {| ref := Some "main" |})
                     (with_token (desk 204) None)) = [].
Proof.
  apply (missing_token_fails_first node (with_token (desk 204) None)).
  reflexivity.
Defined.

(** ** Reading a trace *)

Lemma requests_app (t1 t2 : list event) :
  requests (t1 ++ t2) = (requests t1 ++ requests t2)%list.
Proof. apply flat_map_app. Qed.

Lemma dispatches_app (t1 t2 : list event) :
  dispatches (t1 ++ t2) = (dispatches t1 ++ dispatches t2)%list.
Proof. unfold dispatches. now rewrite requests_app, filter_app. Qed.

Lemma actions_app (t1 t2 : list event) :
  actions (t1 ++ t2) = (actions t1 ++ actions t2)%list.
Proof. apply filter_app. Qed.

Lemma existence_checks_filter (rt : Runtime) (l : list Workflow)
    (f : event -> bool) :
  (forall p, f (EvPathExists p) = false) ->
  filter f (existence_checks rt l) = [].
Proof.
  intros Hf. induction l as [|x l IH]; [reflexivity|].
  unfold existence_checks in *. cbn [flat_map]. rewrite filter_app, IH.
  destruct (truthy (name x) && truthy (path x) && (state x =? "active")%string);
    simpl; [now rewrite Hf | reflexivity].
Qed.

Lemma existence_checks_requests (rt : Runtime) (l : list Workflow) :
  requests (existence_checks rt l) = [].
Proof.
  induction l as [|x l IH]; [reflexivity|].
  unfold existence_checks in *. cbn [flat_map]. rewrite requests_app, IH.
  destruct (truthy (name x) && truthy (path x) && (state x =? "active")%string);
    reflexivity.
Qed.

Lemma existence_checks_dispatches (rt : Runtime) (l : list Workflow) :
  dispatches (existence_checks rt l) = [].
Proof. unfold dispatches. now rewrite existence_checks_requests. Qed.

(** The trace of listing: the request, then the checks. *)
Lemma listing_trace_filter (rt : Runtime) (l : list Workflow) (f : event -> bool) :
  (forall p, f (EvPathExists p) = false) ->
  f (EvRequest listing_request) = false ->
  filter f (EvRequest listing_request :: existence_checks rt l) = [].
Proof.
  intros Hp Hr. cbn [filter]. rewrite Hr. now apply existence_checks_filter.
Qed.

Lemma listing_trace_dispatches (rt : Runtime) (l : list Workflow) :
  dispatches (EvRequest listing_request :: existence_checks rt l) = [].
Proof.
  change (EvRequest listing_request :: existence_checks rt l)
    with ([EvRequest listing_request] ++ existence_checks rt l)%list.
  rewrite dispatches_app, existence_checks_dispatches. reflexivity.
Qed.

Lemma listing_trace_requests (rt : Runtime) (l : list Workflow) :
  requests (EvRequest listing_request :: existence_checks rt l) = [listing_request].
Proof.
  change (EvRequest listing_request :: existence_checks rt l)
    with ([EvRequest listing_request] ++ existence_checks rt l)%list.
  rewrite requests_app, existence_checks_requests. reflexivity.
Qed.

Lemma dispatches_nil : dispatches [] = [].
Proof. reflexivity. Qed.

Lemma requests_nil : requests [] = [].
Proof. reflexivity. Qed.

(** Case analysis on a scrutinee that is not itself a case analysis. *)
Ltac split_match :=
  match goal with
  | |- context [match ?x with _ => _ end] =>
      lazymatch x with
      | context [match _ with _ => _ end] => fail
      | _ => destruct x eqn:?
      end
  end.

Ltac read_trace :=
  cbn [fst snd];
  rewrite ?filter_app, ?dispatches_app, ?requests_app;
  rewrite ?listing_trace_dispatches, ?listing_trace_requests;
  rewrite ?listing_trace_filter by reflexivity;
  rewrite ?dispatches_nil, ?requests_nil;
  cbn [app filter is_prompt is_git_query].

(** ** The missing name on the CI *)

(** C5, as the code has it: with no name and [CI] set, no prompt is issued,
    git is not queried and nothing is dispatched.  Without the token the
    invocation fails with the token error and no remote call; with it, the
    listing request is issued first, and the invocation fails with the
    error for the missing name once the listing has succeeded. *)
Theorem nameless_on_ci_fails_without_prompt (rt : Runtime) (w : World)
    (workflowName : option string) (options : CommandOptions) :
  truthy_opt workflowName = false ->
  truthy_opt (env_CI w) = true ->
  filter is_prompt (trace (main rt workflowName options) w) = []
  /\ filter is_git_query (trace (main rt workflowName options) w) = []
  /\ dispatches (trace (main rt workflowName options) w) = []
  /\ outcome (main rt workflowName options) w
     = (if truthy_opt (env_GITHUB_TOKEN w) then
          match remote w listing_request with
          | Resolved _ => Throw name_missing_on_ci
          | Rejected reason => Throw (Rejection reason)
          end
        else Throw token_missing)
  /\ requests (trace (main rt workflowName options) w)
     = (if truthy_opt (env_GITHUB_TOKEN w) then [listing_request] else [])
  /\ is_configuration_error name_missing_on_ci.
Proof.
  intros Hname Hci. unfold trace, outcome.
  rewrite main_run, getWorkflowsAsync_run.
  destruct (truthy_opt (env_GITHUB_TOKEN w)).
  - destruct (remote w listing_request) as [response|reason].
    + rewrite findWorkflowIdAsync_run, Hname, Hci. read_trace.
      repeat split; try reflexivity. now right.
    + repeat split; try reflexivity. now right.
  - repeat split; try reflexivity. now right.
Qed.

Lemma nameless_on_ci_fails_without_prompt_witness :
  filter is_prompt (trace (main node None {| ref := None |}) ci) = []
  /\ filter is_git_query (trace (main node None {| ref := None |}) ci) = []
  /\ dispatches (trace (main node None {| ref := None |}) ci) = []
  /\ outcome (main node None {| ref := None |}) ci
     = (if truthy_opt (env_GITHUB_TOKEN ci) then
          match remote ci listing_request with
          | Resolved _ => Throw name_missing_on_ci
          | Rejected reason => Throw (Rejection reason)
          end
        else Throw token_missing)
  /\ requests (trace (main node None {| ref := None |}) ci)
     = (if truthy_opt (env_GITHUB_TOKEN ci) then [listing_request] else [])
  /\ is_configuration_error name_missing_on_ci.
Proof.
  apply (nameless_on_ci_fails_without_prompt node ci None {| ref := None |});
    reflexivity.
Defined.

(** C5 as stated fails: on the CI, with the token and no name, the listing
    request has been sent to the remote by the time the error is thrown. *)
Lemma nameless_on_ci_calls_the_remote :
  truthy_opt (env_CI ci) = true
  /\ outcome (main node None {| ref := None |}) ci = Throw name_missing_on_ci
  /\ requests (trace (main node None {| ref := None |}) ci) = [listing_request]
  /\ trace (main node None {| ref := None |}) ci
     = desk_listing_trace.
Proof. repeat split; reflexivity. Qed.

(** ** The reference *)

Lemma dispatchWorkflowAsync_dispatches (rt : Runtime) (w : World) (n : Z)
    (r : string) :
  dispatches (snd (dispatchWorkflowAsync rt n r w))
  = [dispatch_request (env_GITHUB_TOKEN w) n r].
Proof.
  rewrite dispatchWorkflowAsync_run. cbv zeta.
  destruct (remote w _) as [response|reason]; [|reflexivity].
  destruct (status response =? 204); reflexivity.
Qed.

Lemma dispatchWorkflowAsync_filter (rt : Runtime) (w : World) (n : Z)
    (r : string) (f : event -> bool) :
  (forall q, f (EvRequest q) = false) ->
  (forall m p, f (EvLogError m p) = false) ->
  (forall m, f (EvLogSuccess m) = false) ->
  filter f (snd (dispatchWorkflowAsync rt n r w)) = [].
Proof.
  intros Hq He Hs. rewrite dispatchWorkflowAsync_run. cbv zeta.
  destruct (remote w _) as [response|reason]; [|simpl; now rewrite Hq].
  destruct (status response =? 204); simpl; now rewrite Hq, ?He, ?Hs.
Qed.

(** C6, as the code has it: a non-empty [--ref] is the reference of the
    dispatch request, character for character, and git is never asked for
    the current branch. *)
Theorem explicit_ref_is_used_verbatim (rt : Runtime) (w : World)
    (workflowName : option string) (options : CommandOptions) (r : string) :
  ref options = Some r ->
  truthy r = true ->
  filter is_git_query (trace (main rt workflowName options) w) = []
  /\ (dispatches (trace (main rt workflowName options) w) = []
      \/ exists n,
           dispatches (trace (main rt workflowName options) w)
           = [dispatch_request (env_GITHUB_TOKEN w) n r])
  /\ (forall q, In q (dispatches (trace (main rt workflowName options) w)) ->
        param_ref q = Some r).
Proof.
  intros Href Hr.
  assert (Hgit : filter is_git_query (trace (main rt workflowName options) w) = []
          /\ (dispatches (trace (main rt workflowName options) w) = []
              \/ exists n,
                   dispatches (trace (main rt workflowName options) w)
                   = [dispatch_request (env_GITHUB_TOKEN w) n r])).
  { unfold trace. rewrite main_run, getWorkflowsAsync_run.
    destruct (truthy_opt (env_GITHUB_TOKEN w)); [|split; [reflexivity | now left]].
    destruct (remote w listing_request) as [response|reason];
      [|split; [reflexivity | now left]].
    rewrite findWorkflowIdAsync_run, reference_run, Href. cbn [truthy_opt the_string].
    rewrite Hr.
    repeat split_match;
      read_trace;
      rewrite ?dispatchWorkflowAsync_dispatches;
      rewrite ?dispatchWorkflowAsync_filter by reflexivity;
      (split; [reflexivity | first [now left | right; eexists; reflexivity]]). }
  destruct Hgit as (Hgit & Hd). split; [exact Hgit|]. split; [exact Hd|].
  intros q Hq. destruct Hd as [Hd | (n & Hd)]; rewrite Hd in Hq.
  - destruct Hq.
  - destruct Hq as [<- | []]. reflexivity.
Qed.

Lemma explicit_ref_is_used_verbatim_witness :
  filter is_git_query
    (trace (main node (Some "test") {| ref := Some "sdk-36" |}) (desk 204)) = []
  /\ (dispatches (trace (main node (Some "test") {| ref := Some "sdk-36" |})
                        (desk 204)) = []
      \/ exists n,
           dispatches (trace (main node (Some "test") {| ref := Some "sdk-36" |})
                             (desk 204))
           = [dispatch_request (env_GITHUB_TOKEN (desk 204)) n "sdk-36"])
  /\ (forall q,
        In q (dispatches (trace (main node (Some "test") {| ref := Some "sdk-36" |})
                                (desk 204))) ->
        param_ref q = Some "sdk-36").
Proof.
  apply (explicit_ref_is_used_verbatim node (desk 204) (Some "test")
           {| ref := Some "sdk-36" |} "sdk-36"); reflexivity.
Defined.

(** In that run the request is indeed sent, for workflow 2 on [sdk-36]. *)
Example explicit_ref_scenario :
  dispatches (trace (main node (Some "test") {| ref := Some "sdk-36" |}) (desk 204))
  = [dispatch_request (Some "secret") 2 "sdk-36"].
Proof. reflexivity. Qed.

(** C6 as stated fails: [--ref] supplied with the empty string is a falsy
    value, so git is queried and its branch is what is dispatched. *)
Lemma empty_ref_falls_back_to_the_branch :
  ref {| ref := Some EmptyString |} = Some EmptyString
  /\ filter is_git_query
       (trace (main node (Some "test") {| ref := Some EmptyString |}) (desk 204))
     = [EvGitCurrentBranch]
  /\ map param_ref
       (dispatches
          (trace (main node (Some "test") {| ref := Some EmptyString |}) (desk 204)))
     = [Some "main"].
Proof. repeat split; reflexivity. Qed.

(** ** Resolution by name *)

Lemma matches_answers_to (rt : Runtime) (workflowName : string) (x : Workflow) :
  matches rt (toLowerCase rt workflowName) x = true <-> answers_to rt workflowName x.
Proof.
  unfold matches, answers_to, ci_eq, conventional_path.
  now rewrite orb_true_iff, !String.eqb_eq.
Qed.

Lemma find_first {A} (f : A -> bool) (l : list A) (x : A) :
  find f l = Some x ->
  exists pre post,
    l = (pre ++ x :: post)%list /\ f x = true /\ forall y, In y pre -> f y = false.
Proof.
  induction l as [|a l IH]; simpl; [discriminate|].
  destruct (f a) eqn:Ha.
  - intros [= ->]. exists [], l. repeat split; [exact Ha | intros y []].
  - intros Hfind. destruct (IH Hfind) as (pre & post & -> & Hx & Hpre).
    exists (a :: pre), post. repeat split; [exact Hx|].
    intros y [<- | Hy]; [exact Ha | now apply Hpre].
Qed.

(** C1, as the code has it.  In an invocation that has listed the
    workflows, a non-empty name is lowercased and resolution returns the
    identifier of the first workflow of the list that answers to it, by its
    name compared case-insensitively or by its lowercased path being the
    conventional path of the lowercased name.  When no workflow answers,
    resolution returns no identifier and nothing is dispatched; the
    invocation then fails with the not-found error if the reference is
    resolved, and with the failure of the branch lookup if that fails, since
    the lookup runs before the check. *)
Theorem name_resolves_to_first_match (rt : Runtime) (w : World)
    (workflowName : string) (options : CommandOptions)
    (l : list Workflow) (t1 : list event) :
  truthy workflowName = true ->
  truthy_opt (env_GITHUB_TOKEN w) = true ->
  getWorkflowsAsync rt w = (Ok l, t1) ->
  (exists found,
     findWorkflowIdAsync rt l (Some workflowName) w = (Ok (option_map id found), [])
     /\ (forall x, found = Some x ->
           answers_to rt workflowName x
           /\ exists pre post,
                l = (pre ++ x :: post)%list
                /\ forall y, In y pre -> ~ answers_to rt workflowName y)
     /\ (found = None <-> forall y, In y l -> ~ answers_to rt workflowName y))
  /\ ((forall y, In y l -> ~ answers_to rt workflowName y) ->
      dispatches (trace (main rt (Some workflowName) options) w) = []
      /\ outcome (main rt (Some workflowName) options) w
         = match outcome (reference options) w with
           | Ok _ => Throw (workflow_not_found None)
           | Throw e => Throw e
           | Exit c => Exit c
           end
      /\ is_not_found_error (workflow_not_found None)).
Proof.
  intros Hname Htoken Hlist.
  assert (Hnone : (forall y, In y l -> ~ answers_to rt workflowName y) ->
                  find (matches rt (toLowerCase rt workflowName)) l = None).
  { intros Hno. destruct (find _ l) as [x|] eqn:Hfind; [|reflexivity].
    apply find_some in Hfind. destruct Hfind as (Hx & Hm).
    apply matches_answers_to in Hm. now destruct (Hno x Hx). }
  split.
  - exists (find (matches rt (toLowerCase rt workflowName)) l).
    split; [now apply findWorkflowIdAsync_named|]. split.
    + intros x Hfind. destruct (find_first _ _ _ Hfind) as (pre & post & Hl & Hx & Hpre).
      split; [now apply matches_answers_to|].
      exists pre, post. split; [exact Hl|].
      intros y Hy Hans. apply matches_answers_to in Hans.
      rewrite (Hpre y Hy) in Hans. discriminate.
    + split; [|exact Hnone].
      intros Hfind y Hy Hans. apply matches_answers_to in Hans.
      rewrite (find_none _ _ Hfind y Hy) in Hans. discriminate.
  - intros Hno. unfold trace, outcome.
    rewrite main_run, Htoken, Hlist.
    rewrite (findWorkflowIdAsync_named rt w l workflowName Hname).
    rewrite (Hnone Hno). cbn [option_map].
    assert (Ht1 : dispatches t1 = []).
    { rewrite getWorkflowsAsync_run in Hlist.
      destruct (remote w listing_request); [|discriminate].
      injection Hlist as _ <-. apply listing_trace_dispatches. }
    rewrite reference_run.
    repeat (cbn [fst snd]; split_match); read_trace; rewrite Ht1;
      (split; [reflexivity | split; [reflexivity | now exists None]]).
Qed.

Lemma name_resolves_to_first_match_witness :
  (exists found,
     findWorkflowIdAsync node [Build; Test] (Some "TEST") (desk 204)
     = (Ok (option_map id found), [])
     /\ (forall x, found = Some x ->
           answers_to node "TEST" x
           /\ exists pre post,
                [Build; Test] = (pre ++ x :: post)%list
                /\ forall y, In y pre -> ~ answers_to node "TEST" y)
     /\ (found = None <-> forall y, In y [Build; Test] -> ~ answers_to node "TEST" y))
  /\ (dispatches (trace (main node (Some "deploy") {| ref := None |}) (desk 204)) = []
      /\ outcome (main node (Some "deploy") {| ref := None |}) (desk 204)
         = match outcome (reference {| ref := None |}) (desk 204) with
           | Ok _ => Throw (workflow_not_found None)
           | Throw e => Throw e
           | Exit c => Exit c
           end
      /\ is_not_found_error (workflow_not_found None)).
Proof.
  split.
  - apply (name_resolves_to_first_match node (desk 204) "TEST" {| ref := None |}
             [Build; Test]
             desk_listing_trace);
      reflexivity.
  - apply (name_resolves_to_first_match node (desk 204) "deploy" {| ref := None |}
             [Build; Test]
             desk_listing_trace);
      try reflexivity.
    intros y [<- | [<- | []]] [H | H]; discriminate H.
Defined.

(** The scenario of the specification: the name [test] resolves to 2; and
    a name that no workflow answers to ends in the not-found error. *)
Example name_scenario :
  findWorkflowIdAsync node [Build; Test] (Some "test") (desk 204) = (Ok (Some 2), [])
  /\ findWorkflowIdAsync node [Build; Test] (Some "BUILD") (desk 204) = (Ok (Some 1), [])
  /\ findWorkflowIdAsync node [Build; Test] (Some "deploy") (desk 204) = (Ok None, [])
  /\ outcome (main node (Some "deploy") {| ref := None |}) (desk 204)
     = Throw (Error "Unable to find workflow with ID `null`.").
Proof. repeat split; reflexivity. Qed.

(** C1 as stated fails: no workflow answers to [deploy], no [--ref] is
    given and git cannot name a branch; the invocation ends in the failure
    of the lookup, which is not the not-found error. *)
Lemma no_match_may_end_in_the_lookup_failure :
  outcome (getWorkflowsAsync node) no_branch = Ok [Build; Test]
  /\ findWorkflowIdAsync node [Build; Test] (Some "deploy") no_branch = (Ok None, [])
  /\ outcome (main node (Some "deploy") {| ref := None |}) no_branch
     = Throw (Rejection "git")
  /\ (forall workflowId, Rejection "git" <> workflow_not_found workflowId).
Proof.
  repeat split; try reflexivity. intros workflowId. discriminate.
Qed.

(** ** The dispatch *)

(** Either [main] stops before the dispatch, or it ends with
    [dispatchWorkflowAsync], after a prefix that dispatches and logs
    nothing. *)
Lemma main_ends_with_the_dispatch (rt : Runtime) (w : World)
    (workflowName : option string) (options : CommandOptions) :
  dispatches (trace (main rt workflowName options) w) = []
  \/ exists pre n r,
       main rt workflowName options w
       = (fst (dispatchWorkflowAsync rt n r w),
          (pre ++ snd (dispatchWorkflowAsync rt n r w))%list)
       /\ dispatches pre = []
       /\ filter is_log pre = [].
Proof.
  unfold trace. rewrite main_run, getWorkflowsAsync_run.
  destruct (truthy_opt (env_GITHUB_TOKEN w)); [|now left].
  destruct (remote w listing_request) as [response|reason]; [|now left].
  rewrite findWorkflowIdAsync_run, reference_run.
  repeat (cbn [fst snd]; split_match);
    first
      [ left; read_trace; reflexivity
      | right; eexists; eexists; eexists;
        split; [rewrite !app_assoc; reflexivity|];
        split; [read_trace; reflexivity|];
        read_trace; reflexivity ].
Qed.




(** The scenarios of the specification, run: the dispatch answered with 204,
    and the dispatch resolved with another status. *)
Example dispatch_scenario_204 :
  main node (Some "test") {| ref := Some "main" |} (desk 204)
  = (Ok tt,
     (desk_listing_trace
      ++ [EvRequest (dispatch_request (Some "secret") 2 "main");
          EvLogSuccess (emoji_party ++ " Successfully dispatched workflow event ")])%list).
Proof. reflexivity. Qed.

Example dispatch_scenario_200 :
  main node (Some "test") {| ref := Some "main" |} (desk 200)
  = (Exit 1,
     (desk_listing_trace
      ++ [EvRequest (dispatch_request (Some "secret") 2 "main");
          EvLogError (emoji_collision ++ " Dispatching workflow failed with response")
                     "{status: 200}"])%list).
Proof. reflexivity. Qed.

(** ** The token *)

Lemma dispatchWorkflowAsync_erased (rt : Runtime) (w : World) (n : Z) (r : string) :
  map erase_dispatch_headers (actions (snd (dispatchWorkflowAsync rt n r w)))
  = [EvRequest {| route := dispatch_route;
                  headers := [];
                  param_owner := "expo";
                  param_repo := "expo";
                  param_workflow_id := Some n;
                  param_ref := Some r |}].
Proof.
  rewrite dispatchWorkflowAsync_run. cbv zeta.
  destruct (remote w _) as [response|reason]; [|reflexivity].
  destruct (status response =? 204); reflexivity.
Qed.

Lemma getWorkflowsAsync_with_token (rt : Runtime) (w : World)
    (token : option string) :
  getWorkflowsAsync rt (with_token w token) = getWorkflowsAsync rt w.
Proof.
  rewrite !getWorkflowsAsync_run. reflexivity.
Qed.

Lemma findWorkflowIdAsync_with_token (rt : Runtime) (w : World)
    (token : option string) (l : list Workflow) (workflowName : option string) :
  findWorkflowIdAsync rt l workflowName (with_token w token)
  = findWorkflowIdAsync rt l workflowName w.
Proof.
  rewrite !findWorkflowIdAsync_run. reflexivity.
Qed.

Lemma reference_with_token (w : World) (token : option string)
    (options : CommandOptions) :
  reference options (with_token w token) = reference options w.
Proof.
  rewrite !reference_run. reflexivity.
Qed.

(** C9: the listing request has no header, and listing runs the same
    whatever the token is.  Between two invocations that differ only in the
    value of a token that is set, everything the command does to the
    outside world is the same once the headers of the dispatch request are
    set aside, and those headers are the authorization built from the
    token. *)
Theorem token_reaches_only_the_dispatch_header (rt : Runtime) (w : World)
    (workflowName : option string) (options : CommandOptions)
    (token1 token2 : string) :
  truthy token1 = true ->
  truthy token2 = true ->
  headers listing_request = []
  /\ getWorkflowsAsync rt (with_token w (Some token1))
     = getWorkflowsAsync rt (with_token w (Some token2))
  /\ (forall q,
        In q (requests (trace (getWorkflowsAsync rt) (with_token w (Some token1)))) ->
        q = listing_request)
  /\ map erase_dispatch_headers
         (actions (trace (main rt workflowName options) (with_token w (Some token1))))
     = map erase_dispatch_headers
         (actions (trace (main rt workflowName options) (with_token w (Some token2))))
  /\ (forall q,
        In q (dispatches (trace (main rt workflowName options)
                                (with_token w (Some token1)))) ->
        headers q = [("authorization", "token " ++ token1)]).
Proof.
  intros H1 H2. split; [reflexivity|]. split.
  { now rewrite !getWorkflowsAsync_with_token. }
  split.
  { intros q. unfold trace. rewrite getWorkflowsAsync_run.
    destruct (remote _ listing_request) as [response|reason].
    - cbn [snd]. rewrite listing_trace_requests. intros [<- | []]. reflexivity.
    - cbn. intros [<- | []]. reflexivity. }
  split.
  { unfold trace. rewrite !main_run. cbn [env_GITHUB_TOKEN with_token truthy_opt].
    rewrite H1, H2, !getWorkflowsAsync_with_token.
    destruct (getWorkflowsAsync rt w) as [[l|e|c] t1]; try reflexivity.
    rewrite !findWorkflowIdAsync_with_token.
    destruct (findWorkflowIdAsync rt l workflowName w) as [[workflowId|e|c] t2];
      try reflexivity.
    rewrite !reference_with_token.
    destruct (reference options w) as [[r|e|c] t3]; try reflexivity.
    destruct workflowId as [n|]; [|reflexivity].
    destruct (negb (n =? 0) && existsb (fun x => id x =? n) l); [|reflexivity].
    cbn [snd]. rewrite !actions_app, !map_app, !dispatchWorkflowAsync_erased.
    reflexivity. }
  intros q Hq.
  destruct (main_ends_with_the_dispatch rt (with_token w (Some token1))
              workflowName options)
    as [Hnone | (pre & n & r & Hrun & Hpre & _)].
  - rewrite Hnone in Hq. destruct Hq.
  - unfold trace in Hq. rewrite Hrun in Hq. cbn [snd] in Hq.
    rewrite dispatches_app, Hpre, dispatchWorkflowAsync_dispatches in Hq.
    destruct Hq as [<- | []]. reflexivity.
Qed.

Lemma token_reaches_only_the_dispatch_header_witness :
  headers listing_request = []
  /\ getWorkflowsAsync node (with_token (desk 204) (Some "alice"))
     = getWorkflowsAsync node (with_token (desk 204) (Some "bob"))
  /\ (forall q,
        In q (requests (trace (getWorkflowsAsync node)
                              (with_token (desk 204) (Some "alice")))) ->
        q = listing_request)
  /\ map erase_dispatch_headers
         (actions (trace (main node (Some "build") {| ref := None |})
                         (with_token (desk 204) (Some "alice"))))
     = map erase_dispatch_headers
         (actions (trace (main node (Some "build") {| ref := None |})
                         (with_token (desk 204) (Some "bob"))))
  /\ (forall q,
        In q (dispatches (trace (main node (Some "build") {| ref := None |})
                                (with_token (desk 204) (Some "alice")))) ->
        headers q = [("authorization", "token " ++ "alice")]).
Proof.
  apply (token_reaches_only_the_dispatch_header node (desk 204) (Some "build")
           {| ref := None |} "alice" "bob"); reflexivity.
Defined.

(** The two runs do differ, in that header. *)
Example token_scenario :
  map headers (requests (trace (main node (Some "build") {| ref := None |})
                               (with_token (desk 204) (Some "alice"))))
  = [[]; [("authorization", "token alice")]]
  /\ map headers (requests (trace (main node (Some "build") {| ref := None |})
                                  (with_token (desk 204) (Some "bob"))))
     = [[]; [("authorization", "token bob")]].
Proof. split; reflexivity. Qed.

(** ** Case folding by ASCII *)

Lemma lower_string_app (a b : string) :
  lower_string (a ++ b) = lower_string a ++ lower_string b.
Proof.
  induction a as [|c a IH]; simpl; [reflexivity | now rewrite IH].
Qed.

(** Under ASCII case folding, a path answers to a name exactly when it is
    the conventional path of that name up to case. *)
Lemma answers_to_node (workflowName : string) (x : Workflow) :
  answers_to node workflowName x
  <-> ci_eq node (name x) workflowName
      \/ ci_eq node (path x) (conventional_path workflowName).
Proof.
  unfold answers_to, ci_eq, conventional_path. cbn [toLowerCase node].
  rewrite !lower_string_app. reflexivity.
Qed.

(** * Further properties of the command *)

(** ** The stages of [main] *)

Lemma quiet_nil : quiet [].
Proof. split; reflexivity. Qed.

Lemma quiet_app (t1 t2 : list event) : quiet t1 -> quiet t2 -> quiet (t1 ++ t2).
Proof.
  intros (D1 & L1) (D2 & L2). split.
  - now rewrite dispatches_app, D1, D2.
  - now rewrite filter_app, L1, L2.
Qed.

Lemma getWorkflowsAsync_quiet (rt : Runtime) (w : World) :
  quiet (snd (getWorkflowsAsync rt w)).
Proof.
  rewrite getWorkflowsAsync_run.
  destruct (remote w listing_request) as [response|reason]; cbn [snd].
  - split; [apply listing_trace_dispatches | now apply listing_trace_filter].
  - split; reflexivity.
Qed.

Lemma getWorkflowsAsync_no_exit (rt : Runtime) (w : World) (c : Z)
    (t : list event) :
  getWorkflowsAsync rt w <> (Exit c, t).
Proof.
  rewrite getWorkflowsAsync_run.
  destruct (remote w listing_request); discriminate.
Qed.

Lemma findWorkflowIdAsync_quiet (rt : Runtime) (w : World) (l : list Workflow)
    (workflowName : option string) :
  quiet (snd (findWorkflowIdAsync rt l workflowName w)).
Proof.
  rewrite findWorkflowIdAsync_run.
  repeat (cbn [fst snd]; split_match); split; reflexivity.
Qed.

Lemma findWorkflowIdAsync_no_exit (rt : Runtime) (w : World) (l : list Workflow)
    (workflowName : option string) (c : Z) (t : list event) :
  findWorkflowIdAsync rt l workflowName w <> (Exit c, t).
Proof.
  rewrite findWorkflowIdAsync_run.
  repeat (cbn [fst snd]; split_match); discriminate.
Qed.

Lemma reference_quiet (w : World) (options : CommandOptions) :
  quiet (snd (reference options w)).
Proof.
  rewrite reference_run.
  repeat (cbn [fst snd]; split_match); split; reflexivity.
Qed.

Lemma reference_no_exit (w : World) (options : CommandOptions) (c : Z)
    (t : list event) :
  reference options w <> (Exit c, t).
Proof.
  rewrite reference_run.
  repeat (cbn [fst snd]; split_match); discriminate.
Qed.

(** An identifier that resolution returns is that of a member of the
    list. *)
Lemma resolved_id_in_list (rt : Runtime) (w : World) (l : list Workflow)
    (workflowName : option string) (n : Z) (t : list event) :
  findWorkflowIdAsync rt l workflowName w = (Ok (Some n), t) ->
  exists x, In x l /\ id x = n.
Proof.
  rewrite findWorkflowIdAsync_run. intros Hrun.
  destruct (truthy_opt workflowName).
  - destruct (find _ l) as [x|] eqn:Hfind; simpl in Hrun; [|discriminate].
    apply find_some in Hfind. exists x. split; [tauto | congruence].
  - destruct (truthy_opt (env_CI w)); [discriminate|].
    destruct (prompt_choice w) as [i|]; [|discriminate].
    destruct (nth_error l i) as [x|] eqn:Hnth; [|discriminate].
    apply nth_error_In in Hnth. exists x. split; [exact Hnth | congruence].
Qed.

Lemma existsb_id_eq (l : list Workflow) (n : Z) :
  existsb (fun x => id x =? n) l = true <-> exists x, In x l /\ id x = n.
Proof.
  rewrite existsb_exists. split; intros (x & Hx & Hn); exists x;
    (split; [exact Hx|]); now apply Z.eqb_eq.
Qed.

(** [main] either stops with an uncaught error before the dispatch, having
    dispatched and logged nothing, or passes every stage and ends with
    [dispatchWorkflowAsync] on a resolved identifier. *)
Lemma main_stops_or_dispatches (rt : Runtime) (w : World)
    (workflowName : option string) (options : CommandOptions) :
  (exists e t, main rt workflowName options w = (Throw e, t) /\ quiet t)
  \/ exists l t1 t2 t3 n r,
       truthy_opt (env_GITHUB_TOKEN w) = true
       /\ getWorkflowsAsync rt w = (Ok l, t1)
       /\ findWorkflowIdAsync rt l workflowName w = (Ok (Some n), t2)
       /\ reference options w = (Ok r, t3)
       /\ n <> 0
       /\ main rt workflowName options w
          = (fst (dispatchWorkflowAsync rt n r w),
             (t1 ++ t2 ++ t3 ++ snd (dispatchWorkflowAsync rt n r w))%list)
       /\ quiet (t1 ++ t2 ++ t3).
Proof.
  rewrite main_run.
  destruct (truthy_opt (env_GITHUB_TOKEN w)) eqn:Htoken;
    [|left; do 2 eexists; split; [reflexivity | apply quiet_nil]].
  pose proof (getWorkflowsAsync_quiet rt w) as Q1.
  destruct (getWorkflowsAsync rt w) as [[l|e|c] t1] eqn:Hl; cbn [snd] in Q1.
  2: { left. do 2 eexists. split; [reflexivity | exact Q1]. }
  2: { now destruct (getWorkflowsAsync_no_exit rt w c t1). }
  pose proof (findWorkflowIdAsync_quiet rt w l workflowName) as Q2.
  destruct (findWorkflowIdAsync rt l workflowName w) as [[workflowId|e|c] t2] eqn:Hf;
    cbn [snd] in Q2.
  2: { left. do 2 eexists. split; [reflexivity | now apply quiet_app]. }
  2: { now destruct (findWorkflowIdAsync_no_exit rt w l workflowName c t2). }
  pose proof (reference_quiet w options) as Q3.
  destruct (reference options w) as [[r|e|c] t3] eqn:Hr; cbn [snd] in Q3.
  2: { left. do 2 eexists. split; [reflexivity | now repeat apply quiet_app]. }
  2: { now destruct (reference_no_exit w options c t3). }
  assert (Q : quiet (t1 ++ t2 ++ t3)) by now repeat apply quiet_app.
  destruct workflowId as [n|];
    [|left; do 2 eexists; split; [reflexivity | exact Q]].
  destruct (n =? 0) eqn:Hn; cbn [negb andb].
  - left. do 2 eexists. split; [reflexivity | exact Q].
  - destruct (existsb (fun x => id x =? n) l) eqn:Hin.
    + right. exists l, t1, t2, t3, n, r. apply Z.eqb_neq in Hn.
      repeat split; try reflexivity; try assumption; apply Q.
    + left. do 2 eexists. split; [reflexivity | exact Q].
Qed.

(** ** The token and the listing *)

(** X1: a token that is the empty string is a missing token, and [main]
    then throws the token error having done nothing; with a token set, the
    first thing [main] does is always the listing request. *)
Theorem main_starts_with_the_listing (rt : Runtime) (w : World)
    (workflowName : option string) (options : CommandOptions) :
  if truthy_opt (env_GITHUB_TOKEN w)
  then exists t, trace (main rt workflowName options) w = EvRequest listing_request :: t
  else main rt workflowName options w = (Throw token_missing, []).
Proof.
  unfold trace. rewrite main_run, getWorkflowsAsync_run.
  destruct (truthy_opt (env_GITHUB_TOKEN w)); [|reflexivity].
  destruct (remote w listing_request) as [response|reason].
  - repeat (cbn [fst snd]; split_match); cbn [fst snd app];
      eexists; reflexivity.
  - eexists. reflexivity.
Qed.

Example empty_token_scenario :
  main node (Some "test") {| ref := None |}
       (with_token (desk 204) (Some EmptyString))
  = (Throw token_missing, []).
Proof. reflexivity. Qed.

(** X2: when the listing request rejects, [main] ends with that rejection
    and has done nothing else: no file is checked, no prompt issued, git is
    not queried, nothing is dispatched or logged, and nothing is retried. *)
Theorem listing_failure_ends_the_invocation (rt : Runtime) (w : World)
    (workflowName : option string) (options : CommandOptions) (reason : string) :
  truthy_opt (env_GITHUB_TOKEN w) = true ->
  remote w listing_request = Rejected reason ->
  main rt workflowName options w
  = (Throw (Rejection reason), [EvRequest listing_request]).
Proof.
  intros Htoken Hremote.
  now rewrite main_run, Htoken, getWorkflowsAsync_run, Hremote.
Qed.

Lemma listing_failure_ends_the_invocation_witness :
  main node (Some "test") {| ref := None |} offline
  = (Throw (Rejection "ENOTFOUND"), [EvRequest listing_request]).
Proof.
  apply (listing_failure_ends_the_invocation node offline (Some "test")
           {| ref := None |} "ENOTFOUND"); reflexivity.
Defined.

Lemma existence_checks_plausible (rt : Runtime) (l : list Workflow) :
  existence_checks rt l
  = map (fun x => EvPathExists (path_join rt (EXPO_DIR rt) (path x)))
        (filter plausible l).
Proof.
  unfold existence_checks, plausible.
  induction l as [|x l IH]; [reflexivity|]. cbn [flat_map filter].
  rewrite IH.
  destruct (truthy (name x) && truthy (path x) && (state x =? "active")%string);
    reflexivity.
Qed.

(** X3: the predicate of listing asks the file system about a candidate
    only if the candidate has a name, a path and the state ["active"], and
    then about its path joined to [EXPO_DIR]; for any other candidate it
    answers [false] without touching the file system.  So, after the
    listing request, the files that listing checks are those of the
    candidates that pass the three tests, and no other. *)
Theorem listing_checks_exactly_the_plausible_candidates (rt : Runtime)
    (w : World) (response : Response) :
  remote w listing_request = Resolved response ->
  (forall x,
     eligibleAsync rt x w
     = (Ok (eligibleb rt w x),
        if plausible x
        then [EvPathExists (path_join rt (EXPO_DIR rt) (path x))]
        else []))
  /\ exists checks,
       trace (getWorkflowsAsync rt) w = EvRequest listing_request :: checks
       /\ forall e,
            In e checks
            <-> exists x,
                  In x (workflows response)
                  /\ plausible x = true
                  /\ e = EvPathExists (path_join rt (EXPO_DIR rt) (path x)).
Proof.
  intros Hremote. split.
  - intros x. rewrite eligibleAsync_run. unfold existence_checks, plausible.
    cbn [flat_map]. now rewrite app_nil_r.
  - exists (existence_checks rt (workflows response)). split.
    + unfold trace. now rewrite getWorkflowsAsync_run, Hremote.
    + intros e. rewrite existence_checks_plausible, in_map_iff. split.
      * intros (x & <- & Hx). apply filter_In in Hx. exists x. tauto.
      * intros (x & Hx & Hp & ->). exists x.
        split; [reflexivity | now apply filter_In].
Qed.

Lemma listing_checks_exactly_the_plausible_candidates_witness :
  (forall x,
     eligibleAsync node x (desk 204)
     = (Ok (eligibleb node (desk 204) x),
        if plausible x
        then [EvPathExists (path_join node (EXPO_DIR node) (path x))]
        else []))
  /\ exists checks,
       trace (getWorkflowsAsync node) (desk 204) = EvRequest listing_request :: checks
       /\ forall e,
            In e checks
            <-> exists x,
                  In x remote_workflows
                  /\ plausible x = true
                  /\ e = EvPathExists (path_join node (EXPO_DIR node) (path x)).
Proof.
  apply (listing_checks_exactly_the_plausible_candidates node (desk 204)
           {| status := 200; workflows := remote_workflows |}).
  reflexivity.
Defined.

(** ** The prompt *)

(** X4: when [main] prompts (token set, listing succeeded, no name, not on
    the CI) it prompts once, with a question of type [list] whose choices
    are the listed workflows in their sorted order, each shown under its
    name and valued by its identifier, and whose page holds all of them. *)
Theorem prompt_offers_the_listing (rt : Runtime) (w : World)
    (workflowName : option string) (options : CommandOptions)
    (l : list Workflow) (t1 : list event) :
  truthy_opt (env_GITHUB_TOKEN w) = true ->
  truthy_opt workflowName = false ->
  truthy_opt (env_CI w) = false ->
  getWorkflowsAsync rt w = (Ok l, t1) ->
  exists q,
    filter is_prompt (trace (main rt workflowName options) w) = [EvPrompt q]
    /\ question_type q = "list"
    /\ map choice_name (choices q) = map name l
    /\ map value (choices q) = map id l
    /\ pageSize q = List.length (choices q).
Proof.
  intros Htoken Hname Hci Hlist.
  exists (workflow_question l). split.
  - unfold trace. rewrite main_run, Htoken, Hlist.
    rewrite findWorkflowIdAsync_run, Hname, Hci, reference_run.
    assert (Ht1 : filter is_prompt t1 = []).
    { rewrite getWorkflowsAsync_run in Hlist.
      destruct (remote w listing_request); [|discriminate].
      injection Hlist as _ <-. now apply listing_trace_filter. }
    repeat (cbn [fst snd]; split_match); cbn [fst snd];
      rewrite ?filter_app, ?Ht1;
      rewrite ?dispatchWorkflowAsync_filter by reflexivity;
      reflexivity.
  - cbn [workflow_question question_type choices pageSize].
    rewrite !map_map, length_map. repeat split; reflexivity.
Qed.

Lemma prompt_offers_the_listing_witness :
  exists q,
    filter is_prompt (trace (main node None {| ref := None |}) (desk 204))
    = [EvPrompt q]
    /\ question_type q = "list"
    /\ map choice_name (choices q) = map name [Build; Test]
    /\ map value (choices q) = map id [Build; Test]
    /\ pageSize q = List.length (choices q).
Proof.
  apply (prompt_offers_the_listing node (desk 204) None {| ref := None |}
           [Build; Test] desk_listing_trace); reflexivity.
Defined.

(** ** Resolution by name, continued *)

Lemma getWorkflowsAsync_with_interaction (rt : Runtime) (w : World)
    (ci_variable : option string) (choice : option nat) :
  getWorkflowsAsync rt (with_interaction w ci_variable choice)
  = getWorkflowsAsync rt w.
Proof. rewrite !getWorkflowsAsync_run. reflexivity. Qed.

Lemma reference_with_interaction (w : World) (ci_variable : option string)
    (choice : option nat) (options : CommandOptions) :
  reference options (with_interaction w ci_variable choice) = reference options w.
Proof. rewrite !reference_run. reflexivity. Qed.

Lemma dispatchWorkflowAsync_with_interaction (rt : Runtime) (w : World)
    (ci_variable : option string) (choice : option nat) (n : Z) (r : string) :
  dispatchWorkflowAsync rt n r (with_interaction w ci_variable choice)
  = dispatchWorkflowAsync rt n r w.
Proof. rewrite !dispatchWorkflowAsync_run. reflexivity. Qed.

(** X5: with a non-empty name, neither the [CI] variable nor the user at
    the prompt has any influence on the invocation, and no prompt is
    issued. *)
Theorem named_invocation_ignores_ci_and_prompt (rt : Runtime) (w : World)
    (workflowName : string) (options : CommandOptions)
    (ci_variable : option string) (choice : option nat) :
  truthy workflowName = true ->
  main rt (Some workflowName) options (with_interaction w ci_variable choice)
  = main rt (Some workflowName) options w
  /\ filter is_prompt (trace (main rt (Some workflowName) options) w) = [].
Proof.
  intros Hname. split.
  - rewrite !main_run. cbn [env_GITHUB_TOKEN with_interaction].
    destruct (truthy_opt (env_GITHUB_TOKEN w)); [|reflexivity].
    rewrite getWorkflowsAsync_with_interaction.
    destruct (getWorkflowsAsync rt w) as [[l|e|c] t1]; try reflexivity.
    rewrite !findWorkflowIdAsync_named by exact Hname.
    rewrite reference_with_interaction.
    destruct (reference options w) as [[r|e|c] t3]; try reflexivity.
    destruct (option_map id _) as [n|]; [|reflexivity].
    now rewrite dispatchWorkflowAsync_with_interaction.
  - unfold trace. rewrite main_run, getWorkflowsAsync_run.
    destruct (truthy_opt (env_GITHUB_TOKEN w)); [|reflexivity].
    destruct (remote w listing_request) as [response|reason]; [|reflexivity].
    rewrite findWorkflowIdAsync_named by exact Hname. rewrite reference_run.
    repeat (cbn [fst snd]; split_match); read_trace;
      rewrite ?dispatchWorkflowAsync_filter by reflexivity;
      reflexivity.
Qed.

Lemma named_invocation_ignores_ci_and_prompt_witness :
  main node (Some "build") {| ref := None |}
       (with_interaction (desk 204) (Some "true") None)
  = main node (Some "build") {| ref := None |} (desk 204)
  /\ filter is_prompt (trace (main node (Some "build") {| ref := None |}) (desk 204))
     = [].
Proof.
  apply (named_invocation_ignores_ci_and_prompt node (desk 204) "build"
           {| ref := None |} (Some "true") None).
  reflexivity.
Defined.

(** X6: the name argument counts up to case only: two non-empty names with
    the same lowercase form resolve alike and give the same invocation. *)
Theorem names_equal_up_to_case_run_alike (rt : Runtime) (w : World)
    (l : list Workflow) (options : CommandOptions) (a b : string) :
  truthy a = true ->
  truthy b = true ->
  ci_eq rt a b ->
  findWorkflowIdAsync rt l (Some a) w = findWorkflowIdAsync rt l (Some b) w
  /\ main rt (Some a) options w = main rt (Some b) options w.
Proof.
  intros Ha Hb Hab. unfold ci_eq in Hab.
  assert (Hfind : forall l',
             findWorkflowIdAsync rt l' (Some a) w
             = findWorkflowIdAsync rt l' (Some b) w).
  { intros l'. rewrite !findWorkflowIdAsync_named by assumption. now rewrite Hab. }
  split; [apply Hfind|].
  rewrite !main_run.
  destruct (truthy_opt (env_GITHUB_TOKEN w)); [|reflexivity].
  destruct (getWorkflowsAsync rt w) as [[l'|e|c] t1]; try reflexivity.
  now rewrite Hfind.
Qed.

Lemma names_equal_up_to_case_run_alike_witness :
  findWorkflowIdAsync node [Build; Test] (Some "TeSt") (desk 204)
  = findWorkflowIdAsync node [Build; Test] (Some "test") (desk 204)
  /\ main node (Some "TeSt") {| ref := None |} (desk 204)
     = main node (Some "test") {| ref := None |} (desk 204).
Proof.
  apply (names_equal_up_to_case_run_alike node (desk 204) [Build; Test]
           {| ref := None |} "TeSt" "test"); reflexivity.
Defined.

(** X7: every workflow that listing returns can be addressed by its name.
    Its name is not empty, so resolution by that name runs the lookup and
    returns the identifier of a listed workflow that answers to the name;
    it is the workflow's own identifier when no other listed workflow
    answers to the name. *)
Theorem listed_workflow_answers_to_its_name (rt : Runtime) (w : World)
    (l : list Workflow) (t : list event) (x : Workflow) :
  getWorkflowsAsync rt w = (Ok l, t) ->
  In x l ->
  truthy (name x) = true
  /\ (exists y,
        In y l /\ answers_to rt (name x) y
        /\ findWorkflowIdAsync rt l (Some (name x)) w = (Ok (Some (id y)), []))
  /\ ((forall y, In y l -> answers_to rt (name x) y -> y = x) ->
      findWorkflowIdAsync rt l (Some (name x)) w = (Ok (Some (id x)), [])).
Proof.
  intros Hlist Hx.
  assert (Hname : truthy (name x) = true).
  { rewrite getWorkflowsAsync_run in Hlist.
    destruct (remote w listing_request) as [response|]; [|discriminate].
    injection Hlist as <- _.
    apply (Permutation_in _ (sort_perm _ _)) in Hx.
    apply filter_In in Hx. destruct Hx as (_ & Hx).
    unfold eligibleb in Hx. rewrite !andb_true_iff in Hx. tauto. }
  assert (Hfound : exists y,
             find (matches rt (toLowerCase rt (name x))) l = Some y).
  { destruct (find _ l) as [y|] eqn:Hfind; [now exists y|].
    assert (Hm : matches rt (toLowerCase rt (name x)) x = true).
    { apply matches_answers_to. left. reflexivity. }
    rewrite (find_none _ _ Hfind x Hx) in Hm. discriminate. }
  destruct Hfound as (y & Hfind).
  pose proof (find_some _ _ Hfind) as (Hy & Hm).
  apply matches_answers_to in Hm.
  split; [exact Hname|]. split.
  - exists y. repeat split; try assumption.
    rewrite findWorkflowIdAsync_named by exact Hname. now rewrite Hfind.
  - intros Honly. rewrite findWorkflowIdAsync_named by exact Hname.
    rewrite Hfind. now rewrite (Honly y Hy Hm).
Qed.

Lemma listed_workflow_answers_to_its_name_witness :
  truthy (name Test) = true
  /\ (exists y,
        In y [Build; Test] /\ answers_to node (name Test) y
        /\ findWorkflowIdAsync node [Build; Test] (Some (name Test)) (desk 204)
           = (Ok (Some (id y)), []))
  /\ ((forall y, In y [Build; Test] -> answers_to node (name Test) y -> y = Test) ->
      findWorkflowIdAsync node [Build; Test] (Some (name Test)) (desk 204)
      = (Ok (Some (id Test)), [])).
Proof.
  apply (listed_workflow_answers_to_its_name node (desk 204) [Build; Test]
           desk_listing_trace Test).
  - reflexivity.
  - right. left. reflexivity.
Defined.

(** ** What is dispatched, and what is requested *)

(** X8: [main] dispatches nothing but a listed workflow.  Every dispatch
    request it sends is for the identifier, other than 0, of an eligible
    workflow of the listing, on the reference that [reference] resolved, to
    the repository [expo/expo], under the authorization made of the token,
    which is set. *)
Theorem dispatch_targets_a_listed_workflow (rt : Runtime) (w : World)
    (workflowName : option string) (options : CommandOptions) (q : Request) :
  In q (dispatches (trace (main rt workflowName options) w)) ->
  exists l t1 x r,
    getWorkflowsAsync rt w = (Ok l, t1)
    /\ In x l
    /\ eligible rt w x
    /\ id x <> 0
    /\ outcome (reference options) w = Ok r
    /\ truthy_opt (env_GITHUB_TOKEN w) = true
    /\ q = dispatch_request (env_GITHUB_TOKEN w) (id x) r
    /\ param_owner q = "expo" /\ param_repo q = "expo".
Proof.
  intros Hq. unfold trace in Hq.
  destruct (main_stops_or_dispatches rt w workflowName options)
    as [(e & t & Hrun & Hquiet & _)
       | (l & t1 & t2 & t3 & n & r & Htoken & Hl & Hf & Hr & Hn & Hrun & Hquiet & _)];
    rewrite Hrun in Hq; cbn [snd] in Hq.
  - rewrite Hquiet in Hq. destruct Hq.
  - rewrite !app_assoc, dispatches_app, <- !app_assoc, Hquiet in Hq.
    rewrite dispatchWorkflowAsync_dispatches in Hq. destruct Hq as [<- | []].
    destruct (resolved_id_in_list rt w l workflowName n t2 Hf) as (x & Hx & <-).
    assert (Hel : eligible rt w x).
    { rewrite getWorkflowsAsync_run in Hl.
      destruct (remote w listing_request) as [response|]; [|discriminate].
      injection Hl as <- _.
      apply (Permutation_in _ (sort_perm _ _)) in Hx.
      apply filter_In in Hx. now apply eligibleb_true. }
    exists l, t1, x, r.
    split; [exact Hl|]. split; [exact Hx|]. split; [exact Hel|].
    split; [exact Hn|]. split; [unfold outcome; now rewrite Hr|].
    split; [exact Htoken|]. repeat split.
Qed.

Lemma dispatch_targets_a_listed_workflow_witness :
  exists l t1 x r,
    getWorkflowsAsync node (desk 204) = (Ok l, t1)
    /\ In x l
    /\ eligible node (desk 204) x
    /\ id x <> 0
    /\ outcome (reference {| ref := None |}) (desk 204) = Ok r
    /\ truthy_opt (env_GITHUB_TOKEN (desk 204)) = true
    /\ dispatch_request (Some "secret") 1 "main"
       = dispatch_request (env_GITHUB_TOKEN (desk 204)) (id x) r
    /\ param_owner (dispatch_request (Some "secret") 1 "main") = "expo"
    /\ param_repo (dispatch_request (Some "secret") 1 "main") = "expo".
Proof.
  apply (dispatch_targets_a_listed_workflow node (desk 204) (Some "build")
           {| ref := None |} (dispatch_request (Some "secret") 1 "main")).
  left. reflexivity.
Defined.

Lemma dispatchWorkflowAsync_requests (rt : Runtime) (w : World) (n : Z)
    (r : string) :
  requests (snd (dispatchWorkflowAsync rt n r w))
  = [dispatch_request (env_GITHUB_TOKEN w) n r].
Proof.
  rewrite dispatchWorkflowAsync_run. cbv zeta.
  destruct (remote w _) as [response|reason]; [|reflexivity].
  destruct (status response =? 204); reflexivity.
Qed.

(** X9: an invocation sends at most two requests and repeats none: no
    request at all, or the listing request alone, or the listing request
    followed by one dispatch request. *)
Theorem at_most_one_listing_then_one_dispatch (rt : Runtime) (w : World)
    (workflowName : option string) (options : CommandOptions) :
  requests (trace (main rt workflowName options) w) = []
  \/ requests (trace (main rt workflowName options) w) = [listing_request]
  \/ exists n r,
       requests (trace (main rt workflowName options) w)
       = [listing_request; dispatch_request (env_GITHUB_TOKEN w) n r].
Proof.
  unfold trace. rewrite main_run, getWorkflowsAsync_run.
  destruct (truthy_opt (env_GITHUB_TOKEN w)); [|now left].
  destruct (remote w listing_request) as [response|reason];
    [|right; left; reflexivity].
  rewrite findWorkflowIdAsync_run, reference_run.
  repeat (cbn [fst snd]; split_match); read_trace;
    rewrite ?dispatchWorkflowAsync_requests; cbn [requests flat_map app];
    first [ right; left; reflexivity
          | right; right; eexists; eexists; reflexivity ].
Qed.

(** ** The branch lookup *)

(** X10: git is asked for the current branch at most once, and exactly
    when the token is set, [--ref] is absent or empty, and listing and
    resolution both returned: also when resolution returned no identifier,
    since the lookup comes before the not-found check. *)
Theorem branch_lookup_happens_exactly_when (rt : Runtime) (w : World)
    (workflowName : option string) (options : CommandOptions) :
  filter is_git_query (trace (main rt workflowName options) w)
  = if truthy_opt (env_GITHUB_TOKEN w) && negb (truthy_opt (ref options))
    then
      match getWorkflowsAsync rt w with
      | (Ok l, _) =>
          match findWorkflowIdAsync rt l workflowName w with
          | (Ok _, _) => [EvGitCurrentBranch]
          | _ => []
          end
      | _ => []
      end
    else [].
Proof.
  unfold trace. rewrite main_run, getWorkflowsAsync_run.
  destruct (truthy_opt (env_GITHUB_TOKEN w)); [|reflexivity].
  destruct (remote w listing_request) as [response|reason];
    [|destruct (truthy_opt (ref options)); reflexivity].
  rewrite findWorkflowIdAsync_run, reference_run.
  repeat (cbn [fst snd negb andb]; split_match); read_trace;
    rewrite ?dispatchWorkflowAsync_filter by reflexivity;
    reflexivity.
Qed.

(** A name that no workflow answers to, and no [--ref]: git is queried
    before the not-found error is thrown. *)
Example branch_lookup_before_not_found :
  main node (Some "deploy") {| ref := None |} (desk 204)
  = (Throw (workflow_not_found None),
     (desk_listing_trace ++ [EvGitCurrentBranch])%list).
Proof. reflexivity. Qed.

(** ** How an invocation ends *)

(** X11: the process is exited explicitly only with code 1, and only after
    a dispatch request that the remote answered with a status other than
    204; the error line with the serialized response is the last thing
    done, and nothing was logged before the request. *)
Theorem explicit_exit_is_a_failed_dispatch (rt : Runtime) (w : World)
    (workflowName : option string) (options : CommandOptions) (c : Z) :
  outcome (main rt workflowName options) w = Exit c ->
  c = 1
  /\ exists pre q response,
       trace (main rt workflowName options) w
       = (pre ++ [EvRequest q;
                  EvLogError
                    (emoji_collision ++ " Dispatching workflow failed with response")
                    (JSON_stringify rt response)])%list
       /\ is_dispatch q = true
       /\ remote w q = Resolved response
       /\ status response <> 204
       /\ quiet pre.
Proof.
  unfold outcome, trace.
  destruct (main_stops_or_dispatches rt w workflowName options)
    as [(e & t & Hrun & _)
       | (l & t1 & t2 & t3 & n & r & _ & _ & _ & _ & _ & Hrun & Hquiet)];
    rewrite Hrun; cbn [fst snd]; [discriminate|].
  rewrite dispatchWorkflowAsync_run. cbv zeta.
  destruct (remote w _) as [response|reason] eqn:Hremote; [|discriminate].
  destruct (status response =? 204) eqn:Hstatus; [discriminate|].
  cbn [fst snd]. intros [= <-]. split; [reflexivity|].
  exists (t1 ++ t2 ++ t3)%list, (dispatch_request (env_GITHUB_TOKEN w) n r), response.
  split; [now rewrite <- !app_assoc|]. split; [reflexivity|].
  split; [exact Hremote|]. split; [now apply Z.eqb_neq | exact Hquiet].
Qed.

Lemma explicit_exit_is_a_failed_dispatch_witness :
  1 = 1
  /\ exists pre q response,
       trace (main node (Some "test") {| ref := Some "main" |}) (desk 200)
       = (pre ++ [EvRequest q;
                  EvLogError
                    (emoji_collision ++ " Dispatching workflow failed with response")
                    (JSON_stringify node response)])%list
       /\ is_dispatch q = true
       /\ remote (desk 200) q = Resolved response
       /\ status response <> 204
       /\ quiet pre.
Proof.
  apply (explicit_exit_is_a_failed_dispatch node (desk 200) (Some "test")
           {| ref := Some "main" |} 1).
  reflexivity.
Defined.

(** X12: [main] returns normally only after a dispatch request that the
    remote answered with the status 204; the success line is the last thing
    done and the only thing logged. *)
Theorem normal_return_is_an_accepted_dispatch (rt : Runtime) (w : World)
    (workflowName : option string) (options : CommandOptions) :
  outcome (main rt workflowName options) w = Ok tt ->
  exists pre q response,
    trace (main rt workflowName options) w
    = (pre ++ [EvRequest q;
               EvLogSuccess
                 (emoji_party ++ " Successfully dispatched workflow event ")])%list
    /\ is_dispatch q = true
    /\ remote w q = Resolved response
    /\ status response = 204
    /\ quiet pre.
Proof.
  unfold outcome, trace.
  destruct (main_stops_or_dispatches rt w workflowName options)
    as [(e & t & Hrun & _)
       | (l & t1 & t2 & t3 & n & r & _ & _ & _ & _ & _ & Hrun & Hquiet)];
    rewrite Hrun; cbn [fst snd]; [discriminate|].
  rewrite dispatchWorkflowAsync_run. cbv zeta.
  destruct (remote w _) as [response|reason] eqn:Hremote; [|discriminate].
  destruct (status response =? 204) eqn:Hstatus; [|discriminate].
  cbn [fst snd]. intros _.
  exists (t1 ++ t2 ++ t3)%list, (dispatch_request (env_GITHUB_TOKEN w) n r), response.
  split; [now rewrite <- !app_assoc|]. split; [reflexivity|].
  split; [exact Hremote|]. split; [now apply Z.eqb_eq | exact Hquiet].
Qed.

Lemma normal_return_is_an_accepted_dispatch_witness :
  exists pre q response,
    trace (main node None {| ref := None |}) (desk 204)
    = (pre ++ [EvRequest q;
               EvLogSuccess
                 (emoji_party ++ " Successfully dispatched workflow event ")])%list
    /\ is_dispatch q = true
    /\ remote (desk 204) q = Resolved response
    /\ status response = 204
    /\ quiet pre.
Proof.
  apply (normal_return_is_an_accepted_dispatch node (desk 204) None
           {| ref := None |}).
  reflexivity.
Defined.

(** X13: an invocation that ends in an uncaught error has logged nothing,
    and the error is one of five: the token error, the error for a missing
    name on the CI, the not-found error for the identifier [null] or for
    the identifier 0, or the rejection of an awaited call (a request, the
    prompt, git). *)
Theorem uncaught_errors_of_main (rt : Runtime) (w : World)
    (workflowName : option string) (options : CommandOptions) (e : exn) :
  outcome (main rt workflowName options) w = Throw e ->
  filter is_log (trace (main rt workflowName options) w) = []
  /\ (e = token_missing
      \/ e = name_missing_on_ci
      \/ e = workflow_not_found None
      \/ e = workflow_not_found (Some 0)
      \/ exists reason, e = Rejection reason).
Proof.
  intros He. split.
  - unfold outcome, trace in *.
    destruct (main_stops_or_dispatches rt w workflowName options)
      as [(e' & t & Hrun & _ & Hlog)
         | (l & t1 & t2 & t3 & n & r & _ & _ & _ & _ & _ & Hrun & _ & Hlog)];
      rewrite Hrun in *; cbn [fst snd] in *; [exact Hlog|].
    rewrite !app_assoc, filter_app, <- !app_assoc, Hlog.
    rewrite dispatchWorkflowAsync_run in *. cbv zeta in *.
    destruct (remote w _) as [response|reason]; [|reflexivity].
    destruct (status response =? 204); discriminate.
  - unfold outcome in He. rewrite main_run in He.
    destruct (truthy_opt (env_GITHUB_TOKEN w));
      [|injection He as <-; now left].
    rewrite getWorkflowsAsync_run in He.
    destruct (remote w listing_request) as [response|reason];
      [|injection He as <-; do 4 right; now eexists].
    destruct (findWorkflowIdAsync rt _ workflowName w) as [[workflowId|e'|c] t2] eqn:Hf.
    + rewrite reference_run in He.
      destruct (truthy_opt (ref options)).
      * destruct workflowId as [n|];
          [|injection He as <-; right; right; now left].
        destruct (n =? 0) eqn:Hn; cbn [negb andb] in He.
        { apply Z.eqb_eq in Hn. subst n. injection He as <-.
          right; right; right; now left. }
        destruct (resolved_id_in_list rt w _ workflowName n t2 Hf) as (x & Hx & Hid).
        assert (Hin : existsb (fun y => id y =? n) _ = true)
          by (apply existsb_id_eq; exists x; split; [exact Hx | exact Hid]).
        rewrite Hin in He. cbn [fst] in He.
        rewrite dispatchWorkflowAsync_run in He. cbv zeta in He.
        destruct (remote w _) as [response'|reason];
          [|injection He as <-; do 4 right; now eexists].
        destruct (status response' =? 204); discriminate.
      * destruct (current_branch w) as [branch|reason];
          [|injection He as <-; do 4 right; now eexists].
        destruct workflowId as [n|];
          [|injection He as <-; right; right; now left].
        destruct (n =? 0) eqn:Hn; cbn [negb andb] in He.
        { apply Z.eqb_eq in Hn. subst n. injection He as <-.
          right; right; right; now left. }
        destruct (resolved_id_in_list rt w _ workflowName n t2 Hf) as (x & Hx & Hid).
        assert (Hin : existsb (fun y => id y =? n) _ = true)
          by (apply existsb_id_eq; exists x; split; [exact Hx | exact Hid]).
        rewrite Hin in He. cbn [fst] in He.
        rewrite dispatchWorkflowAsync_run in He. cbv zeta in He.
        destruct (remote w _) as [response'|reason];
          [|injection He as <-; do 4 right; now eexists].
        destruct (status response' =? 204); discriminate.
    + rewrite findWorkflowIdAsync_run in Hf.
      injection He as <-.
      destruct (truthy_opt workflowName); [discriminate|].
      destruct (truthy_opt (env_CI w));
        [injection Hf as <- _; right; now left|].
      do 4 right.
      destruct (prompt_choice w) as [i|];
        [destruct (nth_error _ i)|]; try discriminate;
        injection Hf as <- _; now eexists.
    + discriminate He.
Qed.

Lemma uncaught_errors_of_main_witness :
  filter is_log (trace (main node (Some "nightly") {| ref := None |}) desk_with_zero)
  = []
  /\ (workflow_not_found (Some 0) = token_missing
      \/ workflow_not_found (Some 0) = name_missing_on_ci
      \/ workflow_not_found (Some 0) = workflow_not_found None
      \/ workflow_not_found (Some 0) = workflow_not_found (Some 0)
      \/ exists reason, workflow_not_found (Some 0) = Rejection reason).
Proof.
  apply (uncaught_errors_of_main node desk_with_zero (Some "nightly")
           {| ref := None |} (workflow_not_found (Some 0))).
  reflexivity.
Defined.

(** X14: once listing, resolution and the reference have returned, [main]
    dispatches the resolved identifier whenever it is a number other than
    0: the membership test never turns a resolved identifier down.  The
    identifier 0 is falsy, so a workflow that has it is resolved and then
    reported as not found; no identifier at all is reported likewise. *)
Theorem resolved_id_is_dispatched_unless_zero (rt : Runtime) (w : World)
    (workflowName : option string) (options : CommandOptions)
    (l : list Workflow) (workflowId : option Z) (r : string)
    (t1 t2 t3 : list event) :
  truthy_opt (env_GITHUB_TOKEN w) = true ->
  getWorkflowsAsync rt w = (Ok l, t1) ->
  findWorkflowIdAsync rt l workflowName w = (Ok workflowId, t2) ->
  reference options w = (Ok r, t3) ->
  main rt workflowName options w
  = match workflowId with
    | Some n =>
        if n =? 0
        then (Throw (workflow_not_found (Some 0)), (t1 ++ t2 ++ t3)%list)
        else (fst (dispatchWorkflowAsync rt n r w),
              (t1 ++ t2 ++ t3 ++ snd (dispatchWorkflowAsync rt n r w))%list)
    | None => (Throw (workflow_not_found None), (t1 ++ t2 ++ t3)%list)
    end.
Proof.
  intros Htoken Hl Hf Hr. rewrite main_run, Htoken, Hl, Hf, Hr.
  destruct workflowId as [n|]; [|reflexivity].
  destruct (n =? 0) eqn:Hn; cbn [negb andb].
  - apply Z.eqb_eq in Hn. now subst n.
  - destruct (resolved_id_in_list rt w l workflowName n t2 Hf) as (x & Hx & Hid).
    assert (Hin : existsb (fun y => id y =? n) l = true)
      by (apply existsb_id_eq; exists x; split; [exact Hx | exact Hid]).
    now rewrite Hin.
Qed.

Lemma resolved_id_is_dispatched_unless_zero_witness :
  main node (Some "nightly") {| ref := None |} desk_with_zero
  = (Throw (workflow_not_found (Some 0)),
     ([EvRequest listing_request;
       EvPathExists "/expo/.github/workflows/nightly.yml";
       EvPathExists "/expo/.github/workflows/build.yml"]
      ++ [] ++ [EvGitCurrentBranch])%list)
  /\ main node (Some "build") {| ref := None |} desk_with_zero
     = (fst (dispatchWorkflowAsync node 1 "main" desk_with_zero),
        ([EvRequest listing_request;
          EvPathExists "/expo/.github/workflows/nightly.yml";
          EvPathExists "/expo/.github/workflows/build.yml"]
         ++ [] ++ [EvGitCurrentBranch]
         ++ snd (dispatchWorkflowAsync node 1 "main" desk_with_zero))%list).
Proof.
  split.
  - apply (resolved_id_is_dispatched_unless_zero node desk_with_zero
             (Some "nightly") {| ref := None |} [Build; Nightly] (Some 0) "main");
      reflexivity.
  - apply (resolved_id_is_dispatched_unless_zero node desk_with_zero
             (Some "build") {| ref := None |} [Build; Nightly] (Some 1) "main");
      reflexivity.
Defined.

(** The workflow with identifier 0 is listed and resolved, and the error
    reads [ID `0`]. *)
Example zero_id_scenario :
  findWorkflowIdAsync node [Build; Nightly] (Some "nightly") desk_with_zero
  = (Ok (Some 0), [])
  /\ outcome (main node (Some "nightly") {| ref := None |}) desk_with_zero
     = Throw (Error "Unable to find workflow with ID `0`.")
  /\ outcome (main node (Some "build") {| ref := None |}) desk_with_zero = Ok tt.
Proof. repeat split; reflexivity. Qed.

(** ** The order of the remote listing *)

Lemma Permutation_filter {A} (f : A -> bool) (l1 l2 : list A) :
  Permutation l1 l2 -> Permutation (filter f l1) (filter f l2).
Proof.
  induction 1 as [|x l1 l2 _ IH|x y l|l1 l2 l3 _ IH1 _ IH2]; simpl.
  - apply perm_nil.
  - destruct (f x); [now apply perm_skip | exact IH].
  - destruct (f x), (f y); try apply Permutation_refl. apply perm_swap.
  - now apply (perm_trans IH1).
Qed.

Lemma Permutation_all_equal {A} (l1 l2 : list A) :
  (forall x y, In x l1 -> In y l1 -> x = y) ->
  Permutation l1 l2 -> l1 = l2.
Proof.
  intros Heq Hperm. destruct l1 as [|a l1].
  - now apply Permutation_nil in Hperm.
  - assert (H1 : Forall (eq a) (a :: l1)).
    { apply Forall_forall. intros x Hx. apply Heq; [now left | exact Hx]. }
    assert (H2 : Forall (eq a) l2) by now apply (Permutation_Forall Hperm).
    rewrite (Forall_eq_repeat H1), (Forall_eq_repeat H2).
    now rewrite (Permutation_length Hperm).
Qed.

(** Sorting forgets the order of its input when no two distinct members
    compare equal. *)
Lemma sort_of_permutation {A} (cmp : A -> A -> Z) (l1 l2 : list A) :
  consistent_comparator cmp ->
  (forall x y, In x l1 -> In y l1 -> cmp x y = 0 -> x = y) ->
  Permutation l1 l2 ->
  sort cmp l1 = sort cmp l2.
Proof.
  intros Hcmp Hdistinct Hperm.
  apply (sorted_stable_unique cmp Hcmp); try now apply sort_sorted.
  intros c.
  rewrite !sort_keeps_order by (intros a b; now apply same_class_before).
  apply Permutation_all_equal; [|now apply Permutation_filter].
  intros x y Hx Hy.
  apply filter_In in Hx. apply filter_In in Hy.
  destruct Hx as (Hx & Cx), Hy as (Hy & Cy).
  apply Hdistinct; try assumption.
  pose proof (same_class_before cmp Hcmp c x y Cx Cy).
  pose proof (same_class_before cmp Hcmp c y x Cy Cx).
  now apply before_antisym.
Qed.

Lemma by_name_consistent (rt : Runtime) :
  consistent_comparator (localeCompare rt) -> consistent_comparator (by_name rt).
Proof.
  intros (Hr & Hs & Ht & Hlt & Hgt). unfold by_name.
  repeat split; intros.
  - apply Hr.
  - now apply Hs.
  - now apply (Ht _ (name b)).
  - now apply (Hlt _ (name b)).
  - now apply (Hgt _ (name b)).
Qed.

(** X15: the list that listing returns does not depend on the order in
    which the remote lists the workflows, provided no two distinct eligible
    workflows have names that compare equal: two responses that list the
    same workflows, over the same working copy, give the same list. *)
Theorem listing_ignores_the_remote_order (rt : Runtime) (w w' : World)
    (response response' : Response) :
  consistent_comparator (localeCompare rt) ->
  remote w listing_request = Resolved response ->
  remote w' listing_request = Resolved response' ->
  pathExists w' = pathExists w ->
  Permutation (workflows response) (workflows response') ->
  (forall x y,
     In x (workflows response) -> In y (workflows response) ->
     eligible rt w x -> eligible rt w y ->
     localeCompare rt (name x) (name y) = 0 -> x = y) ->
  outcome (getWorkflowsAsync rt) w = outcome (getWorkflowsAsync rt) w'.
Proof.
  intros Hcmp Hr Hr' Hfs Hperm Hdistinct. unfold outcome.
  rewrite !getWorkflowsAsync_run, Hr, Hr'. cbn [fst]. f_equal.
  assert (Hsame : filter (eligibleb rt w') (workflows response')
                  = filter (eligibleb rt w) (workflows response')).
  { apply filter_ext. intros x. unfold eligibleb. now rewrite Hfs. }
  rewrite Hsame.
  apply sort_of_permutation.
  - now apply by_name_consistent.
  - intros x y Hx Hy Hxy.
    apply filter_In in Hx. apply filter_In in Hy.
    destruct Hx as (Hx & Ex), Hy as (Hy & Ey).
    apply Hdistinct; try assumption; now apply eligibleb_true.
  - now apply Permutation_filter.
Qed.

Lemma listing_ignores_the_remote_order_witness :
  outcome (getWorkflowsAsync node) (desk 204)
  = outcome (getWorkflowsAsync node) desk_reordered.
Proof.
  apply (listing_ignores_the_remote_order node (desk 204) desk_reordered
           {| status := 200; workflows := remote_workflows |}
           {| status := 200; workflows := [Retired; Build; Gone; Test] |}).
  - exact compare_code_units_consistent.
  - reflexivity.
  - reflexivity.
  - reflexivity.
  - apply (Permutation_trans
             (l' := [Retired; Test; Gone; Build])).
    + change remote_workflows with ([Test; Gone; Build] ++ [Retired])%list.
      apply Permutation_sym, (Permutation_cons_append [Test; Gone; Build] Retired).
    + apply perm_skip.
      change [Test; Gone; Build] with ([Test] ++ [Gone; Build])%list.
      change [Build; Gone; Test] with ([Build; Gone] ++ [Test])%list.
      apply (Permutation_trans (l' := ([Gone; Build] ++ [Test])%list)).
      * apply Permutation_app_comm.
      * apply Permutation_app_tail, perm_swap.
  - intros x y Hx Hy Ex Ey Hxy.
    destruct Ex as (_ & _ & Sx & Px), Ey as (_ & _ & Sy & Py).
    simpl in Hx, Hy.
    destruct Hx as [<- | [<- | [<- | [<- | []]]]];
      destruct Hy as [<- | [<- | [<- | [<- | []]]]];
      try reflexivity; try discriminate.
Defined.
